(** * MIDIParser: the byte classifier and the parser state machine

    A shallow embedding of [MIDIparser.h] / [MIDIparser.cpp].  The source
    tree carries two revisions of the parser: the one whose predicates are
    called [is_cmd] / [is_rtcmd] (module [Rev1]) and the one whose predicates
    are called [is_msg] / [is_rtmsg] (module [Rev2]).  Both are embedded, each
    from its own text.

    Conventions.
    - [uint8_t], [int8_t] and [char] values are integers of [Z]; the
      conversions the C++ code performs implicitly are written out
      ([uint8], [int8]).
    - Indexing a constant table or the two-entry data array outside its bounds
      has no defined result in C++: the embedding returns [None] there, and
      so does every function that performs such an access. *)

From Stdlib Require Import ZArith List Lia Bool.
Import ListNotations.
Local Open Scope Z_scope.

(** ** Fixed-width conversions *)

(** Conversion of an integer (a [char], an [int]) to [uint8_t]. *)
Definition uint8 (z : Z) : Z := z mod 256.

(** Conversion of an integer to [int8_t] (two's complement). *)
Definition int8 (z : Z) : Z := (z + 128) mod 256 - 128.

(** ** Arrays *)

(** [t[i]] on a constant table; [None] when [i] is not an index of [t]. *)
Definition index (t : list Z) (i : Z) : option Z :=
  if i <? 0 then None else nth_error t (Z.to_nat i).

(** [uint8_t mData[2]]: a fixed array of two bytes. *)
Definition array2 : Type := (Z * Z)%type.

(** [a[i]] on the data array. *)
Definition load (a : array2) (i : Z) : option Z :=
  if i =? 0 then Some (fst a)
  else if i =? 1 then Some (snd a)
  else None.

(** [a[i] = v] on the data array; [None] when [i] is neither 0 nor 1. *)
Definition store (a : array2) (i v : Z) : option array2 :=
  if i =? 0 then Some (v, snd a)
  else if i =? 1 then Some (fst a, v)
  else None.

(** ** A small error monad for the partial operations *)

Definition bind {A B : Type} (m : option A) (k : A -> option B) : option B :=
  match m with
  | Some a => k a
  | None => None
  end.

Notation "x <- m ;; k" := (bind m (fun x => k))
  (at level 61, m at next level, right associativity).

(** ** [enum Message] (identical in both revisions of the header) *)

Module MIDI.
Definition NONE        : Z := 0x00.
Definition NOTE_OFF    : Z := 0x80.
Definition NOTE_ON     : Z := 0x90.
Definition AFTERTOUCH  : Z := 0xA0.
Definition CC_CHANGE   : Z := 0xB0.
Definition PROG_CHANGE : Z := 0xC0.
Definition CH_TOUCH    : Z := 0xD0.
Definition PITCH_BEND  : Z := 0xE0.
Definition SYSEX       : Z := 0xF0.
Definition MTCQFRAME   : Z := 0xF1.
Definition SPP         : Z := 0xF2.
Definition SONG_SELECT : Z := 0xF3.
Definition UNDEF_1     : Z := 0xF4.
Definition UNDEF_2     : Z := 0xF5.
Definition TUNE_REQ    : Z := 0xF6.
Definition ENDEX       : Z := 0xF7.
Definition RT_CLOCK    : Z := 0xF8.
Definition RT_UNDEF_1  : Z := 0xF9.
Definition RT_START    : Z := 0xFA.
Definition RT_CONTINUE : Z := 0xFB.
Definition RT_STOP     : Z := 0xFC.
Definition RT_UNDEF_2  : Z := 0xFD.
Definition RT_SENSE    : Z := 0xFE.
Definition RT_RESET    : Z := 0xFF.

(** [msg_value] and [msg_channel], the same in both headers. *)
Definition msg_value (msg : Z) : Z := Z.land msg 0xf0.
Definition msg_channel (msg : Z) : Z := Z.land msg 0x0f.
End MIDI.

(** ** [class Parser]: the private fields (identical in both revisions) *)

Record Parser : Type := mkParser {
  mMessage  : Z;       (* uint8_t: the message being worked on *)
  mExpected : Z;       (* int8_t: the remaining parameter byte count *)
  mData     : array2   (* uint8_t [2]: message data *)
}.

(** [Parser::reset], the same text in both revisions: every field is
    overwritten, whatever the object held. *)
Definition reset (_ : Parser) : Parser :=
  {| mMessage := 0; mExpected := 0; mData := (0, 0) |}.

Definition get_message (p : Parser) : Z := mMessage p.
Definition get_dataA (p : Parser) : Z := fst (mData p).
Definition get_dataB (p : Parser) : Z := snd (mData p).

(** [((uint16_t)mData[1] << 7) | (uint16_t)mData[0]], as a [uint16_t]. *)
Definition get_int14 (p : Parser) : Z :=
  Z.lor (Z.shiftl (snd (mData p)) 7) (fst (mData p)) mod 65536.

(** ** First revision: [is_cmd], [is_rtcmd], [SYS_MESSAGES], [RT_MESSAGES]

    The first listing of [MIDIparser.cpp], with the header that declares
    [is_cmd]. *)

Module Rev1.
Definition SYS_MESSAGES : Z := MIDI.SYSEX.
Definition RT_MESSAGES  : Z := MIDI.RT_CLOCK.

Definition is_cmd (cmd : Z) : bool := Z.land cmd 0x80 =? 0x80.
Definition is_syscmd (cmd : Z) : bool := Z.land cmd 0xf8 =? 0xf0.
Definition is_rtcmd (cmd : Z) : bool := Z.land cmd 0xf8 =? 0xf8.

(** [int8_t const midi_msg_bytes[7]] *)
Definition midi_msg_bytes : list Z := [2; 2; 2; 2; 1; 2; 2].

(** [int8_t const midi_sysmsg_bytes[7]] *)
Definition midi_sysmsg_bytes : list Z := [-1; 1; 2; 1; 0; 0; 0].

Definition expected_bytes (message : Z) : option Z :=
  if message <? SYS_MESSAGES then
    index midi_msg_bytes (Z.land (Z.shiftr message 4) 7)
  else if message <? RT_MESSAGES then
    index midi_sysmsg_bytes (Z.land message 0x7)
  else Some 0.

(** The tail of [accept], reached by every path that has not returned:
    the completion test and the re-arming for running status. *)
Definition finish (p : Parser) : option (Z * Parser) :=
  if mExpected p =? 0 then
    e <- expected_bytes (mMessage p) ;;
    Some (mMessage p,
          {| mMessage := mMessage p; mExpected := e; mData := mData p |})
  else Some (0, p).

(** [uint8_t Parser::accept(char midiByte)]: the returned byte and the
    parser afterwards. *)
Definition accept (p : Parser) (midiByte : Z) : option (Z * Parser) :=
  let b := uint8 midiByte in
  if is_rtcmd b then Some (b, p)
  else if is_cmd b then
    e <- expected_bytes b ;;
    let p1 := {| mMessage := b; mExpected := e; mData := mData p |} in
    if mExpected p1 <? 0 then Some (mMessage p1, p1) else finish p1
  else if 0 <? mExpected p then
    d <- store (mData p) (2 - mExpected p) b ;;
    finish {| mMessage := mMessage p;
              mExpected := int8 (mExpected p - 1);
              mData := d |}
  else finish p.
End Rev1.

(** ** Second revision: [is_msg], [is_rtmsg], [SYS_MSGS], [RT_MSGS]

    The second listing of [MIDIparser.cpp], with [MIDIparser.h]. *)

Module Rev2.
Definition SYS_MSGS : Z := MIDI.SYSEX.
Definition RT_MSGS  : Z := MIDI.RT_CLOCK.

Definition is_msg (msg : Z) : bool := Z.land msg 0x80 =? 0x80.
Definition is_sysmsg (msg : Z) : bool := Z.land msg 0xf8 =? 0xf0.
Definition is_rtmsg (msg : Z) : bool := Z.land msg 0xf8 =? 0xf8.

(** [int8_t const midi_msg_bytes[7]] *)
Definition midi_msg_bytes : list Z := [2; 2; 2; 2; 1; 1; 2].

(** [int8_t const midi_sysmsg_bytes[8]] *)
Definition midi_sysmsg_bytes : list Z := [-1; 1; 2; 1; 0; 0; 0; 0].

Definition expected_bytes (msg : Z) : option Z :=
  if msg <? SYS_MSGS then
    index midi_msg_bytes (Z.land (Z.shiftr msg 4) 7)
  else
    index midi_sysmsg_bytes (Z.land msg 0x7).

(** The tail of [accept]: the completion test and the re-arming for
    running status. *)
Definition finish (p : Parser) : option (Z * Parser) :=
  if mExpected p =? 0 then
    e <- expected_bytes (mMessage p) ;;
    Some (mMessage p,
          {| mMessage := mMessage p; mExpected := e; mData := mData p |})
  else Some (0, p).

(** [uint8_t Parser::accept(char midiByte)]: the returned byte and the
    parser afterwards. *)
Definition accept (p : Parser) (midiByte : Z) : option (Z * Parser) :=
  let b := uint8 midiByte in
  if is_rtmsg b then Some (b, p)
  else if is_msg b then
    e <- expected_bytes b ;;
    let p1 := {| mMessage := b; mExpected := e; mData := mData p |} in
    if mExpected p1 <? 0 then Some (mMessage p1, p1) else finish p1
  else if 0 <? mExpected p then
    d <- store (mData p) (2 - mExpected p) b ;;
    finish {| mMessage := mMessage p;
              mExpected := int8 (mExpected p - 1);
              mData := d |}
  else finish p.
End Rev2.

(** ** Driving a parser with a stream of bytes *)

Section Feed.
Variable step : Parser -> Z -> option (Z * Parser).

(** Feed the bytes in order; collect what each call returned. *)
Fixpoint feed (p : Parser) (bytes : list Z) : option (list Z * Parser) :=
  match bytes with
  | [] => Some ([], p)
  | b :: rest =>
      rp <- step p b ;;
      rq <- feed (snd rp) rest ;;
      Some (fst rp :: fst rq, snd rq)
  end.

(** The parsers a caller can obtain: after a reset, and after any call of
    [accept] that has a defined result. *)
Inductive reachable : Parser -> Prop :=
| reach_reset : forall p, reachable (reset p)
| reach_accept : forall p b r p',
    reachable p -> step p b = Some (r, p') -> reachable p'.
End Feed.


(** ** The control flow the two revisions share

    The two texts of [accept] differ only in the names of the predicates
    and in the tables behind [expected_bytes].  [machine] is that common
    control flow with the three functions left open; [rev1_accept_machine]
    and [rev2_accept_machine] below show that each revision is an instance
    of it, so that a property of the state machine is proved once. *)

Section Machine.
Variables is_rt is_m : Z -> bool.
Variable expected : Z -> option Z.

Definition machine_finish (p : Parser) : option (Z * Parser) :=
  if mExpected p =? 0 then
    e <- expected (mMessage p) ;;
    Some (mMessage p,
          {| mMessage := mMessage p; mExpected := e; mData := mData p |})
  else Some (0, p).

Definition machine (p : Parser) (midiByte : Z) : option (Z * Parser) :=
  let b := uint8 midiByte in
  if is_rt b then Some (b, p)
  else if is_m b then
    e <- expected b ;;
    let p1 := {| mMessage := b; mExpected := e; mData := mData p |} in
    if mExpected p1 <? 0 then Some (mMessage p1, p1) else machine_finish p1
  else if 0 <? mExpected p then
    d <- store (mData p) (2 - mExpected p) b ;;
    machine_finish {| mMessage := mMessage p;
                      mExpected := int8 (mExpected p - 1);
                      mData := d |}
  else machine_finish p.
End Machine.

(** The constructor [Parser() { reset(); }]: whatever the fresh object
    holds, [reset] overwrites it. *)
Definition new_parser : Parser :=
  reset {| mMessage := 0; mExpected := 0; mData := (0, 0) |}.

(** ** Exhaustive reasoning over the 256 byte values *)

Definition all_bytes : list Z := map Z.of_nat (seq 0 256).

(** A byte, as an unsigned value. *)
Definition is_byte (b : Z) : Prop := 0 <= b < 256.

(** Decidable equality of table look-ups, for the exhaustive checks. *)
Definition option_eqb (x y : option Z) : bool :=
  match x, y with
  | Some a, Some b => a =? b
  | None, None => true
  | _, _ => false
  end.

(** The parameter count the header documents for a channel message:
    [PROG_CHANGE] and [CH_TOUCH] carry one data byte, the others two. *)
Definition channel_count (b : Z) : Z :=
  if (MIDI.msg_value b =? MIDI.PROG_CHANGE) || (MIDI.msg_value b =? MIDI.CH_TOUCH)
  then 1 else 2.

(** The bytes a parser can hold in [mMessage]: the value [reset] stores, or
    a message byte below the realtime range. *)
Definition message_or_none (m : Z) : Prop := m = 0 \/ 0x80 <= m < 0xF8.

(** The values [mExpected] is meant to take. *)
Definition count_ok (e : Z) : Prop := e = -1 \/ e = 0 \/ e = 1 \/ e = 2.

(** A data byte: the high bit is clear. *)
Definition is_data (b : Z) : Prop := 0 <= b < 0x80.

(** What holds of every parser a caller can obtain (see [reachable]): the
    pending count is one of the four values, [mMessage] is a byte [accept]
    may store there, and the count of that byte can be looked up again. *)
Definition parser_ok (expected : Z -> option Z) (p : Parser) : Prop :=
  count_ok (mExpected p)
  /\ message_or_none (mMessage p)
  /\ expected (mMessage p) <> None.

(** Running status, for a parser [p] left by a completed message [m] and
    two further data bytes [c], [d]: [p] is armed for two bytes; the call on
    [c] answers 0, the call on [d] answers [m]; afterwards [get_dataA] is
    [c], [get_dataB] is [d], and the parser is armed for two bytes again. *)
Definition runs_again (step : Parser -> Z -> option (Z * Parser))
    (p : Parser) (m c d : Z) : Prop :=
  mExpected p = 2
  /\ exists p1 p2,
       step p c = Some (0, p1)
       /\ step p1 d = Some (m, p2)
       /\ get_message p2 = m
       /\ get_dataA p2 = c
       /\ get_dataB p2 = d
       /\ mExpected p2 = 2.

(** What one call of [accept], from [p] on the byte [c] to [p'], may change:
    the pending count stays one of the four values; [mMessage] changes only
    when [c] is a message byte that is not a realtime byte, and then to [c];
    [mData] changes only by a store of [c], a data byte, at index 0 or 1. *)
Definition step_frame (is_rt is_m : Z -> bool) (p : Parser) (c : Z)
    (p' : Parser) : Prop :=
  count_ok (mExpected p')
  /\ (mMessage p' <> mMessage p ->
      is_m (uint8 c) = true /\ is_rt (uint8 c) = false
      /\ mMessage p' = uint8 c)
  /\ (mData p' = mData p
      \/ (is_m (uint8 c) = false
          /\ (2 - mExpected p = 0 \/ 2 - mExpected p = 1)
          /\ store (mData p) (2 - mExpected p) (uint8 c)
             = Some (mData p'))).

(** ** The tracer sketch: what it prints for a byte [accept] returned

    [loop] of the MIDI tracer reads the pending bytes of the port one by one,
    hands each to [parser.accept] and prints a line for a non-zero answer.
    The calls on [Serial] are recorded in order, each with its argument. *)

From Stdlib Require Ascii String.

Module Tracer.
Import Ascii String.

Inductive item : Type :=
| Print_hex (n : Z)          (* Serial.print(n, HEX) *)
| Print_num (n : Z)          (* Serial.print(n) *)
| Print_str (s : string)     (* Serial.print("...") *)
| Print_char (c : ascii)     (* Serial.print('.') *)
| Println (s : string).      (* Serial.println("...") *)

(** [char const midi_sysmsg_names[][7]] *)
Definition midi_sysmsg_names : list string :=
  [ "SYSEX "; "TMCODE"; "SNGPOS"; "SNGSEL"; "      "; "      "; "TUNE  ";
    "ENDEX "; "CLOCK "; "      "; "START "; "CONT  "; "STOP  "; "      ";
    "SENSE "; "RESET " ]%string.

(** [char const midi_msg_names[][8]] *)
Definition midi_msg_names : list string :=
  [ "NOTOFF "; "NOTEON "; "ATOUCH "; "CC CHG "; "PRGCHG "; "CTOUCH ";
    "P BEND " ]%string.

(** [t[i]] on a table of names; [None] when [i] is not an index of [t]. *)
Definition name_at (t : list string) (i : Z) : option string :=
  if i <? 0 then None else nth_error t (Z.to_nat i).

(** The body of [if (msg != 0) { ... }] in [loop], for the byte [msg] that
    [accept] returned and the parser [p] it left. *)
Definition print_message (msg : Z) (p : Parser) : option (list item) :=
  if negb (msg =? 0) then
    if msg <? MIDI.SYSEX then
      name <- name_at midi_msg_names (Z.land (Z.shiftr msg 4) 0x07) ;;
      Some ([ Print_hex msg; Print_str " CH ";
              Print_num (MIDI.msg_channel msg); Print_str ": ";
              Print_str name; Print_char " "%char ]
            ++ (if MIDI.msg_value msg =? MIDI.PITCH_BEND
                then [ Print_hex (get_int14 p) ]
                else [ Print_hex (get_dataA p); Print_str ", ";
                       Print_hex (get_dataB p) ])
            ++ [ Println EmptyString ])
    else if negb (msg =? MIDI.RT_CLOCK) then
      name <- name_at midi_sysmsg_names (Z.land msg 0x0f) ;;
      Some [ Print_str "SYS: "; Print_str name; Println EmptyString ]
    else Some []
  else Some [].

(** The calls one expects for a pitch bend [m] with the 14-bit value [v]:
    the status byte in hex, the channel, the name and the value in hex. *)
Definition pitch_bend_line (m v : Z) : list item :=
  [ Print_hex m; Print_str " CH "; Print_num (m - MIDI.PITCH_BEND);
    Print_str ": "; Print_str "P BEND "; Print_char " "%char;
    Print_hex v; Println EmptyString ].

(** [loop]: the [while] over the pending bytes of the port.  [step] is the
    [accept] of the parser the sketch is linked with. *)
Fixpoint loop (step : Parser -> Z -> option (Z * Parser)) (p : Parser)
    (pending : list Z) : option (list item * Parser) :=
  match pending with
  | [] => Some ([], p)
  | data :: rest =>
      rp <- step p (uint8 data) ;;
      out <- print_message (fst rp) (snd rp) ;;
      rq <- loop step (snd rp) rest ;;
      Some (out ++ fst rq, snd rq)
  end.
End Tracer.

(** ** Vocabulary of the further properties *)

(** The bytes on which the two revisions read different table entries: a
    channel-pressure byte, or [ENDEX]. *)
Definition tables_differ_on (c : Z) : Prop :=
  0xD0 <= uint8 c <= 0xDF \/ uint8 c = MIDI.ENDEX.

(** The answers [feed] collected for the bytes that are not realtime
    bytes. *)
Definition answers_without (is_rt : Z -> bool) (bytes answers : list Z)
    : list Z :=
  map snd (filter (fun cr => negb (is_rt (uint8 (fst cr))))
                  (combine bytes answers)).

(** * Properties *)

Lemma in_all_bytes (b : Z) : is_byte b -> In b all_bytes.
Proof.
  intros [Hlo Hhi]. unfold all_bytes.
  rewrite <- (Z2Nat.id b Hlo). apply in_map, in_seq. lia.
Qed.

(** A boolean property checked on each of the 256 values holds of every
    byte. *)
Lemma forall_bytes (P : Z -> bool) :
  forallb P all_bytes = true -> forall b, is_byte b -> P b = true.
Proof.
  intros Hall b Hb.
  rewrite forallb_forall in Hall. apply Hall, in_all_bytes, Hb.
Qed.

Lemma uint8_is_byte (z : Z) : is_byte (uint8 z).
Proof. unfold is_byte, uint8. apply Z.mod_pos_bound. lia. Qed.

Lemma uint8_of_byte (b : Z) : is_byte b -> uint8 b = b.
Proof. intros Hb. unfold uint8. apply Z.mod_small, Hb. Qed.

Lemma int8_small (z : Z) : -128 <= z < 128 -> int8 z = z.
Proof. intros Hz. unfold int8. rewrite Z.mod_small; lia. Qed.

Lemma index_in_bounds (t : list Z) (i : Z) :
  index t i <> None <-> 0 <= i < Z.of_nat (length t).
Proof.
  unfold index. destruct (Z.ltb_spec i 0) as [Hneg | Hpos].
  - split; [congruence | lia].
  - rewrite nth_error_Some. lia.
Qed.

(** ** The classifying predicates, as comparisons *)

Lemma rev1_is_rtcmd_spec (b : Z) :
  is_byte b -> Rev1.is_rtcmd b = (0xF8 <=? b).
Proof.
  intros Hb. apply eqb_prop.
  apply (forall_bytes (fun b => eqb (Rev1.is_rtcmd b) (0xF8 <=? b)));
    [vm_compute; reflexivity | exact Hb].
Qed.

Lemma rev1_is_cmd_spec (b : Z) :
  is_byte b -> Rev1.is_cmd b = (0x80 <=? b).
Proof.
  intros Hb. apply eqb_prop.
  apply (forall_bytes (fun b => eqb (Rev1.is_cmd b) (0x80 <=? b)));
    [vm_compute; reflexivity | exact Hb].
Qed.

Lemma rev2_is_rtmsg_spec (b : Z) :
  is_byte b -> Rev2.is_rtmsg b = (0xF8 <=? b).
Proof.
  intros Hb. apply eqb_prop.
  apply (forall_bytes (fun b => eqb (Rev2.is_rtmsg b) (0xF8 <=? b)));
    [vm_compute; reflexivity | exact Hb].
Qed.

Lemma rev2_is_msg_spec (b : Z) :
  is_byte b -> Rev2.is_msg b = (0x80 <=? b).
Proof.
  intros Hb. apply eqb_prop.
  apply (forall_bytes (fun b => eqb (Rev2.is_msg b) (0x80 <=? b)));
    [vm_compute; reflexivity | exact Hb].
Qed.

Lemma option_eqb_eq (x y : option Z) : option_eqb x y = true -> x = y.
Proof.
  destruct x as [a |], y as [b |]; simpl; try discriminate; auto.
  intros H. apply Z.eqb_eq in H. now subst.
Qed.

(** Run a boolean check over all bytes and keep it as a hypothesis about
    the byte [b]. *)
Ltac check_byte P Hb :=
  let H := fresh "Hchk" in
  assert (H := forall_bytes P ltac:(vm_compute; reflexivity) _ Hb);
  cbv beta in H.

(** ** The parameter-count tables *)

(** Second revision, channel messages: the count is read from
    [midi_msg_bytes] at the 3-bit opcode and is 1 for program change and
    channel pressure, 2 otherwise. *)
Lemma rev2_expected_bytes_channel (b : Z) :
  0x80 <= b < 0xF0 ->
  Rev2.expected_bytes b
    = index Rev2.midi_msg_bytes (Z.land (Z.shiftr b 4) 7)
  /\ Rev2.expected_bytes b = Some (channel_count b).
Proof.
  intros Hr. assert (Hb : is_byte b) by (unfold is_byte; lia).
  split.
  - unfold Rev2.expected_bytes, Rev2.SYS_MSGS, MIDI.SYSEX.
    destruct (Z.ltb_spec b 0xF0); [reflexivity | lia].
  - check_byte (fun b => implb ((0x80 <=? b) && (b <? 0xF0))
       (option_eqb (Rev2.expected_bytes b) (Some (channel_count b)))) Hb.
    replace (0x80 <=? b) with true in Hchk by (symmetry; apply Z.leb_le; lia).
    replace (b <? 0xF0) with true in Hchk by (symmetry; apply Z.ltb_lt; lia).
    apply option_eqb_eq, Hchk.
Qed.

(** First revision, channel messages: the same look-up, but the table holds
    2 at the channel-pressure slot, so only program change yields 1. *)
Lemma rev1_expected_bytes_channel (b : Z) :
  0x80 <= b < 0xF0 ->
  Rev1.expected_bytes b
    = index Rev1.midi_msg_bytes (Z.land (Z.shiftr b 4) 7)
  /\ Rev1.expected_bytes b
     = Some (if MIDI.msg_value b =? MIDI.PROG_CHANGE then 1 else 2).
Proof.
  intros Hr. assert (Hb : is_byte b) by (unfold is_byte; lia).
  split.
  - unfold Rev1.expected_bytes, Rev1.SYS_MESSAGES, MIDI.SYSEX.
    destruct (Z.ltb_spec b 0xF0); [reflexivity | lia].
  - check_byte (fun b => implb ((0x80 <=? b) && (b <? 0xF0))
       (option_eqb (Rev1.expected_bytes b)
          (Some (if MIDI.msg_value b =? MIDI.PROG_CHANGE then 1 else 2)))) Hb.
    replace (0x80 <=? b) with true in Hchk by (symmetry; apply Z.leb_le; lia).
    replace (b <? 0xF0) with true in Hchk by (symmetry; apply Z.ltb_lt; lia).
    apply option_eqb_eq, Hchk.
Qed.

(** Second revision, system-common messages: the count is read from
    [midi_sysmsg_bytes] at the low three bits, and the eight entries are the
    ones the MIDI protocol prescribes. *)
Lemma rev2_expected_bytes_system_common :
  (forall b, 0xF0 <= b <= 0xF7 ->
     Rev2.expected_bytes b = index Rev2.midi_sysmsg_bytes (Z.land b 0x7))
  /\ Rev2.expected_bytes MIDI.SYSEX = Some (-1)
  /\ Rev2.expected_bytes MIDI.MTCQFRAME = Some 1
  /\ Rev2.expected_bytes MIDI.SPP = Some 2
  /\ Rev2.expected_bytes MIDI.SONG_SELECT = Some 1
  /\ Rev2.expected_bytes MIDI.UNDEF_1 = Some 0
  /\ Rev2.expected_bytes MIDI.UNDEF_2 = Some 0
  /\ Rev2.expected_bytes MIDI.TUNE_REQ = Some 0
  /\ Rev2.expected_bytes MIDI.ENDEX = Some 0.
Proof.
  split; [| repeat split; reflexivity].
  intros b Hr. unfold Rev2.expected_bytes, Rev2.SYS_MSGS, MIDI.SYSEX.
  destruct (Z.ltb_spec b 0xF0); [lia | reflexivity].
Qed.

(** First revision, system-common messages: the first seven entries are the
    same, and the table ends there. *)
Lemma rev1_expected_bytes_system_common :
  (forall b, 0xF0 <= b <= 0xF7 ->
     Rev1.expected_bytes b = index Rev1.midi_sysmsg_bytes (Z.land b 0x7))
  /\ Rev1.expected_bytes MIDI.SYSEX = Some (-1)
  /\ Rev1.expected_bytes MIDI.MTCQFRAME = Some 1
  /\ Rev1.expected_bytes MIDI.SPP = Some 2
  /\ Rev1.expected_bytes MIDI.SONG_SELECT = Some 1
  /\ Rev1.expected_bytes MIDI.UNDEF_1 = Some 0
  /\ Rev1.expected_bytes MIDI.UNDEF_2 = Some 0
  /\ Rev1.expected_bytes MIDI.TUNE_REQ = Some 0.
Proof.
  split; [| repeat split; reflexivity].
  intros b Hr.
  unfold Rev1.expected_bytes, Rev1.SYS_MESSAGES, Rev1.RT_MESSAGES,
    MIDI.SYSEX, MIDI.RT_CLOCK.
  destruct (Z.ltb_spec b 0xF0); [lia |].
  destruct (Z.ltb_spec b 0xF8); [reflexivity | lia].
Qed.

(** Second revision: every look-up [expected_bytes] performs for a message
    byte below the realtime range is inside its table. *)
Lemma rev2_lookup_in_bounds (b : Z) :
  0x80 <= b <= 0xF7 ->
  (b < Rev2.SYS_MSGS ->
     0 <= Z.land (Z.shiftr b 4) 7 < Z.of_nat (length Rev2.midi_msg_bytes))
  /\ (Rev2.SYS_MSGS <= b ->
     0 <= Z.land b 0x7 < Z.of_nat (length Rev2.midi_sysmsg_bytes))
  /\ Rev2.expected_bytes b <> None.
Proof.
  intros Hr. assert (Hb : is_byte b) by (unfold is_byte; lia).
  check_byte (fun b => (0 <=? Z.land b 0x7) && (Z.land b 0x7 <? 8)) Hb.
  apply andb_prop in Hchk. destruct Hchk as [H0 H8].
  apply Z.leb_le in H0. apply Z.ltb_lt in H8.
  unfold Rev2.SYS_MSGS, MIDI.SYSEX.
  assert (Hch : b < 0xF0 ->
            0 <= Z.land (Z.shiftr b 4) 7
              < Z.of_nat (length Rev2.midi_msg_bytes)).
  { intros Hlt. destruct (rev2_expected_bytes_channel b) as [Hidx Hval];
      [lia |].
    apply index_in_bounds. rewrite <- Hidx, Hval. discriminate. }
  assert (Hsys : 0xF0 <= b ->
            0 <= Z.land b 0x7 < Z.of_nat (length Rev2.midi_sysmsg_bytes)).
  { intros _. simpl length. lia. }
  split; [exact Hch | split; [exact Hsys |]].
  unfold Rev2.expected_bytes, Rev2.SYS_MSGS, MIDI.SYSEX.
  destruct (Z.ltb_spec b 0xF0); apply index_in_bounds; auto.
Qed.

(** First revision: the look-ups are inside the tables for every such byte
    other than [ENDEX]. *)
Lemma rev1_lookup_in_bounds (b : Z) :
  0x80 <= b < 0xF7 ->
  (b < Rev1.SYS_MESSAGES ->
     0 <= Z.land (Z.shiftr b 4) 7 < Z.of_nat (length Rev1.midi_msg_bytes))
  /\ (Rev1.SYS_MESSAGES <= b ->
     0 <= Z.land b 0x7 < Z.of_nat (length Rev1.midi_sysmsg_bytes))
  /\ Rev1.expected_bytes b <> None.
Proof.
  intros Hr. assert (Hb : is_byte b) by (unfold is_byte; lia).
  check_byte (fun b => implb ((0xF0 <=? b) && (b <? 0xF7))
    ((0 <=? Z.land b 0x7) && (Z.land b 0x7 <? 7))) Hb.
  unfold Rev1.SYS_MESSAGES, MIDI.SYSEX.
  assert (Hch : b < 0xF0 ->
            0 <= Z.land (Z.shiftr b 4) 7
              < Z.of_nat (length Rev1.midi_msg_bytes)).
  { intros Hlt. destruct (rev1_expected_bytes_channel b) as [Hidx Hval];
      [lia |].
    apply index_in_bounds. rewrite <- Hidx, Hval. discriminate. }
  assert (Hsys : 0xF0 <= b ->
            0 <= Z.land b 0x7 < Z.of_nat (length Rev1.midi_sysmsg_bytes)).
  { intros Hge.
    replace (0xF0 <=? b) with true in Hchk by (symmetry; apply Z.leb_le; lia).
    replace (b <? 0xF7) with true in Hchk by (symmetry; apply Z.ltb_lt; lia).
    simpl in Hchk. apply andb_prop in Hchk. destruct Hchk as [H0 H7].
    apply Z.leb_le in H0. apply Z.ltb_lt in H7. simpl length. lia. }
  split; [exact Hch | split; [exact Hsys |]].
  unfold Rev1.expected_bytes, Rev1.SYS_MESSAGES, Rev1.RT_MESSAGES,
    MIDI.SYSEX, MIDI.RT_CLOCK.
  destruct (Z.ltb_spec b 0xF0); [apply index_in_bounds; auto |].
  destruct (Z.ltb_spec b 0xF8); [apply index_in_bounds; auto | lia].
Qed.

(** ** The state machine *)

Lemma rev1_accept_machine (p : Parser) (c : Z) :
  Rev1.accept p c
    = machine Rev1.is_rtcmd Rev1.is_cmd Rev1.expected_bytes p c.
Proof. reflexivity. Qed.

Lemma rev2_accept_machine (p : Parser) (c : Z) :
  Rev2.accept p c
    = machine Rev2.is_rtmsg Rev2.is_msg Rev2.expected_bytes p c.
Proof. reflexivity. Qed.

Section MachineFacts.
Variables is_rt is_m : Z -> bool.
Variable expected : Z -> option Z.
Hypothesis is_rt_spec : forall b, is_byte b -> is_rt b = (0xF8 <=? b).
Hypothesis is_m_spec : forall b, is_byte b -> is_m b = (0x80 <=? b).

Local Abbreviation step := (machine is_rt is_m expected).
Local Abbreviation finish := (machine_finish expected).

(** The three branches of [accept], selected by the range of the byte. *)
Lemma machine_realtime (p : Parser) (c : Z) :
  0xF8 <= uint8 c -> step p c = Some (uint8 c, p).
Proof.
  intros Hc. unfold machine. cbv zeta.
  rewrite (is_rt_spec _ (uint8_is_byte c)).
  destruct (Z.leb_spec 0xF8 (uint8 c)); [reflexivity | lia].
Qed.

Lemma machine_message (p : Parser) (c : Z) :
  0x80 <= uint8 c < 0xF8 ->
  step p c =
    (e <- expected (uint8 c) ;;
     if e <? 0
     then Some (uint8 c,
                {| mMessage := uint8 c; mExpected := e; mData := mData p |})
     else finish
            {| mMessage := uint8 c; mExpected := e; mData := mData p |}).
Proof.
  intros Hc. unfold machine. cbv zeta.
  rewrite (is_rt_spec _ (uint8_is_byte c)), (is_m_spec _ (uint8_is_byte c)).
  destruct (Z.leb_spec 0xF8 (uint8 c)); [lia |].
  destruct (Z.leb_spec 0x80 (uint8 c)); [reflexivity | lia].
Qed.

Lemma machine_data (p : Parser) (c : Z) :
  uint8 c < 0x80 ->
  step p c =
    if 0 <? mExpected p then
      d <- store (mData p) (2 - mExpected p) (uint8 c) ;;
      finish {| mMessage := mMessage p;
                mExpected := int8 (mExpected p - 1);
                mData := d |}
    else finish p.
Proof.
  intros Hc. unfold machine. cbv zeta.
  rewrite (is_rt_spec _ (uint8_is_byte c)), (is_m_spec _ (uint8_is_byte c)).
  destruct (Z.leb_spec 0xF8 (uint8 c)); [lia |].
  destruct (Z.leb_spec 0x80 (uint8 c)); [lia | reflexivity].
Qed.

(** [accept] returns through [finish] with a non-zero byte only when the
    message is complete, and then [mExpected] has been re-armed. *)
Lemma finish_returns (p p' : Parser) (r : Z) :
  finish p = Some (r, p') ->
  (r = 0 /\ p' = p /\ mExpected p <> 0)
  \/ (r = mMessage p /\ mExpected p = 0 /\ mMessage p' = mMessage p
      /\ mData p' = mData p /\ expected (mMessage p) = Some (mExpected p')).
Proof.
  unfold machine_finish. destruct (Z.eqb_spec (mExpected p) 0) as [H0 | Hn0].
  - destruct (expected (mMessage p)) as [e |]; simpl; [| discriminate].
    intros H. injection H as <- <-. right. simpl. auto.
  - intros H. injection H as <- <-. left. auto.
Qed.
(** Whenever [accept] hands back a message byte [m] below the realtime
    range, the parser it leaves holds [m] as its message and the count that
    [expected_bytes] gives for [m]. *)
Lemma machine_completed (p0 p : Parser) (x m : Z) :
  0 < m < 0xF8 ->
  step p0 x = Some (m, p) ->
  mMessage p = m /\ expected m = Some (mExpected p).
Proof.
  intros Hm Hstep.
  destruct (Z.le_gt_cases 0xF8 (uint8 x)) as [Hrt | Hnrt].
  { rewrite machine_realtime in Hstep by exact Hrt.
    injection Hstep as Hr _. lia. }
  destruct (Z.le_gt_cases 0x80 (uint8 x)) as [Hmsg | Hdat].
  - rewrite machine_message in Hstep by lia.
    destruct (expected (uint8 x)) as [e |] eqn:He; simpl in Hstep;
      [| discriminate].
    destruct (e <? 0).
    + injection Hstep as <- <-. simpl. auto.
    + apply finish_returns in Hstep.
      destruct Hstep as [[Hr _] | (Hr & _ & Hm' & _ & He')]; [lia |].
      simpl in Hr, Hm', He'. subst m. rewrite Hm'. auto.
  - rewrite machine_data in Hstep by lia.
    destruct (0 <? mExpected p0).
    + destruct (store (mData p0) (2 - mExpected p0) (uint8 x)) as [d |];
        simpl in Hstep; [| discriminate].
      apply finish_returns in Hstep.
      destruct Hstep as [[Hr _] | (Hr & _ & Hm' & _ & He')]; [lia |].
      simpl in Hr, Hm', He'. subst m. rewrite Hm'. auto.
    + apply finish_returns in Hstep.
      destruct Hstep as [[Hr _] | (Hr & _ & Hm' & _ & He')]; [lia |].
      subst m. rewrite Hm'. auto.
Qed.

(** A parser that is armed for two data bytes stores the next two data
    bytes in [mData[0]] and [mData[1]], answers 0 to the first and the
    message to the second, and is armed again afterwards. *)
Lemma machine_two_data (p : Parser) (m c d : Z) :
  mMessage p = m -> mExpected p = 2 -> expected m = Some 2 ->
  is_data c -> is_data d ->
  step p c
    = Some (0, {| mMessage := m; mExpected := 1;
                  mData := (c, snd (mData p)) |})
  /\ step {| mMessage := m; mExpected := 1; mData := (c, snd (mData p)) |} d
    = Some (m, {| mMessage := m; mExpected := 2; mData := (c, d) |}).
Proof.
  intros Hm He Hexp Hc Hd. unfold is_data in Hc, Hd.
  assert (Huc : uint8 c = c) by (apply uint8_of_byte; unfold is_byte; lia).
  assert (Hud : uint8 d = d) by (apply uint8_of_byte; unfold is_byte; lia).
  split.
  - rewrite machine_data by lia. rewrite Huc, He, Hm. reflexivity.
  - rewrite machine_data by lia. rewrite Hud. simpl.
    unfold machine_finish. simpl. rewrite Hexp. reflexivity.
Qed.

(** A data byte that arrives while nothing is pending and no message byte
    has been seen is not stored; the call answers 0. *)
Lemma machine_idle_data (p : Parser) (c e : Z) :
  mExpected p = 0 -> mMessage p = 0 -> expected 0 = Some e ->
  is_data c ->
  step p c
    = Some (0, {| mMessage := 0; mExpected := e; mData := mData p |}).
Proof.
  intros He Hm Hexp Hc. unfold is_data in Hc.
  assert (Huc : uint8 c = c) by (apply uint8_of_byte; unfold is_byte; lia).
  rewrite machine_data by lia. rewrite He. simpl.
  unfold machine_finish. rewrite He, Hm, Hexp. reflexivity.
Qed.

(** *** SYSEX *)

Lemma machine_sysex (p : Parser) :
  expected MIDI.SYSEX = Some (-1) ->
  step p MIDI.SYSEX
    = Some (MIDI.SYSEX,
            {| mMessage := MIDI.SYSEX; mExpected := -1; mData := mData p |}).
Proof.
  intros Hexp. rewrite machine_message by (vm_compute; split; congruence).
  change (uint8 MIDI.SYSEX) with MIDI.SYSEX. rewrite Hexp. reflexivity.
Qed.

Lemma machine_hold_data (p : Parser) (c : Z) :
  mExpected p < 0 -> is_data c -> step p c = Some (0, p).
Proof.
  intros He Hc. unfold is_data in Hc.
  assert (Huc : uint8 c = c) by (apply uint8_of_byte; unfold is_byte; lia).
  rewrite machine_data by lia.
  destruct (Z.ltb_spec 0 (mExpected p)); [lia |].
  unfold machine_finish.
  destruct (Z.eqb_spec (mExpected p) 0); [lia | reflexivity].
Qed.

Lemma machine_hold_stream (p : Parser) (ds : list Z) :
  mExpected p < 0 -> Forall is_data ds ->
  feed step p ds = Some (map (fun _ => 0) ds, p).
Proof.
  intros He Hds. induction Hds as [| c ds Hc _ IH]; [reflexivity |].
  simpl. rewrite (machine_hold_data p c He Hc). simpl.
  rewrite IH. reflexivity.
Qed.

Lemma machine_endex (p : Parser) :
  expected MIDI.ENDEX = Some 0 ->
  step p MIDI.ENDEX
    = Some (MIDI.ENDEX,
            {| mMessage := MIDI.ENDEX; mExpected := 0; mData := mData p |}).
Proof.
  intros Hexp. rewrite machine_message by (vm_compute; split; congruence).
  change (uint8 MIDI.ENDEX) with MIDI.ENDEX. rewrite Hexp. simpl.
  unfold machine_finish. simpl. rewrite Hexp. reflexivity.
Qed.
(** *** Invariants

    The facts below need to know of the tables only that every count they
    hold for a message byte is one of -1, 0, 1, 2. *)

Hypothesis expected_count :
  forall m e, message_or_none m -> expected m = Some e -> count_ok e.

Lemma finish_preserves (p p' : Parser) (r : Z) :
  parser_ok expected p ->
  finish p = Some (r, p') ->
  parser_ok expected p'
  /\ (r = 0 \/ 0x80 <= r <= 0xFF)
  /\ mMessage p' = mMessage p
  /\ mData p' = mData p.
Proof.
  intros Hok Hfin. pose proof Hok as (Hc & Hm & Hdef).
  apply finish_returns in Hfin.
  destruct Hfin as [(-> & -> & _) | (-> & _ & Hm' & Hd' & He')].
  - split; [exact Hok | split; [left; reflexivity | split; reflexivity]].
  - assert (Hr : mMessage p = 0 \/ 0x80 <= mMessage p <= 0xFF)
      by (destruct Hm; [left; assumption | right; lia]).
    split; [| split; [exact Hr | split; assumption]].
    unfold parser_ok. rewrite Hm'. split; [| split; assumption].
    apply (expected_count (mMessage p)); assumption.
Qed.

Lemma finish_defined (p : Parser) :
  expected (mMessage p) <> None -> exists r p', finish p = Some (r, p').
Proof.
  intros Hdef. unfold machine_finish.
  destruct (mExpected p =? 0); [| eauto].
  destruct (expected (mMessage p)) as [e |]; [simpl; eauto | congruence].
Qed.

(** One call of [accept] on a parser that satisfies [parser_ok]: the
    invariant is kept; the answer is 0 or a byte with the high bit set;
    [mMessage] changes only to the byte fed, and only when that byte is a
    message byte below the realtime range; [mData] changes only by a store
    of the byte fed, a data byte, at index 0 or 1. *)
Lemma machine_preserves (p p' : Parser) (c r : Z) :
  parser_ok expected p ->
  step p c = Some (r, p') ->
  parser_ok expected p'
  /\ (r = 0 \/ 0x80 <= r <= 0xFF)
  /\ (mMessage p' <> mMessage p ->
      0x80 <= uint8 c < 0xF8 /\ mMessage p' = uint8 c)
  /\ (mData p' = mData p
      \/ (uint8 c < 0x80
          /\ (2 - mExpected p = 0 \/ 2 - mExpected p = 1)
          /\ store (mData p) (2 - mExpected p) (uint8 c)
             = Some (mData p'))).
Proof.
  intros Hok Hstep. pose proof (uint8_is_byte c) as Hb. unfold is_byte in Hb.
  destruct (Z.le_gt_cases 0xF8 (uint8 c)) as [Hrt | Hnrt].
  { rewrite machine_realtime in Hstep by exact Hrt.
    injection Hstep as <- <-.
    split; [exact Hok | split; [right; lia | split]].
    - intros Hne. congruence.
    - left; reflexivity. }
  destruct (Z.le_gt_cases 0x80 (uint8 c)) as [Hmsg | Hdat].
  - rewrite machine_message in Hstep by lia.
    destruct (expected (uint8 c)) as [e |] eqn:He; simpl in Hstep;
      [| discriminate].
    assert (Hok1 : parser_ok expected
              {| mMessage := uint8 c; mExpected := e; mData := mData p |}).
    { unfold parser_ok; simpl. split; [| split].
      - apply (expected_count (uint8 c)); [right; lia | exact He].
      - right; lia.
      - congruence. }
    destruct (e <? 0).
    + injection Hstep as <- <-. simpl.
      split; [exact Hok1 | split; [right; lia | split]].
      * intros _. split; [lia | reflexivity].
      * left; reflexivity.
    + destruct (finish_preserves _ _ _ Hok1 Hstep) as (Hok' & Hr & Hm' & Hd').
      simpl in Hm', Hd'.
      split; [exact Hok' | split; [exact Hr | split]].
      * intros _. split; [lia | exact Hm'].
      * left; exact Hd'.
  - rewrite machine_data in Hstep by lia.
    destruct Hok as (Hc & Hm & Hdef).
    destruct (Z.ltb_spec 0 (mExpected p)) as [Hpos | Hnpos].
    + assert (He : mExpected p = 1 \/ mExpected p = 2)
        by (unfold count_ok in Hc; lia).
      destruct (store (mData p) (2 - mExpected p) (uint8 c)) as [d |] eqn:Hst;
        simpl in Hstep; [| discriminate].
      assert (Hok1 : parser_ok expected
                {| mMessage := mMessage p;
                   mExpected := int8 (mExpected p - 1);
                   mData := d |}).
      { unfold parser_ok; simpl. split; [| split; assumption].
        rewrite int8_small by lia. unfold count_ok. lia. }
      destruct (finish_preserves _ _ _ Hok1 Hstep) as (Hok' & Hr & Hm' & Hd').
      simpl in Hm', Hd'.
      split; [exact Hok' | split; [exact Hr | split]].
      * intros Hne. congruence.
      * right. rewrite Hd'. split; [lia | split; [lia | reflexivity]].
    + assert (Hok : parser_ok expected p)
        by (unfold parser_ok; split; [| split]; assumption).
      destruct (finish_preserves _ _ _ Hok Hstep) as (Hok' & Hr & Hm' & Hd').
      split; [exact Hok' | split; [exact Hr | split]].
      * intros Hne. congruence.
      * left; exact Hd'.
Qed.

(** [accept] has a defined result as soon as the count of the byte fed can
    be looked up (a requirement on message bytes only). *)
Lemma machine_defined (p : Parser) (c : Z) :
  parser_ok expected p ->
  (0x80 <= uint8 c < 0xF8 -> expected (uint8 c) <> None) ->
  exists r p', step p c = Some (r, p').
Proof.
  intros (Hc & Hm & Hdef) Hlook.
  destruct (Z.le_gt_cases 0xF8 (uint8 c)) as [Hrt | Hnrt].
  { rewrite machine_realtime by exact Hrt. eauto. }
  destruct (Z.le_gt_cases 0x80 (uint8 c)) as [Hmsg | Hdat].
  - rewrite machine_message by lia.
    destruct (expected (uint8 c)) as [e |] eqn:He; simpl;
      [| exfalso; apply Hlook; [lia | reflexivity]].
    destruct (e <? 0); [eauto |].
    apply finish_defined. simpl. congruence.
  - rewrite machine_data by lia.
    destruct (Z.ltb_spec 0 (mExpected p)) as [Hpos | Hnpos].
    + assert (He : mExpected p = 1 \/ mExpected p = 2)
        by (unfold count_ok in Hc; lia).
      assert (Hst : exists d,
                store (mData p) (2 - mExpected p) (uint8 c) = Some d)
        by (destruct He as [-> | ->]; unfold store; simpl; eauto).
      destruct Hst as [d ->]. simpl. apply finish_defined. exact Hdef.
    + apply finish_defined. exact Hdef.
Qed.

(** Every parser obtained from [reset] by calls of [accept] satisfies
    [parser_ok]. *)
Lemma reachable_parser_ok (p : Parser) :
  expected 0 <> None ->
  reachable step p -> parser_ok expected p.
Proof.
  intros H0 Hreach. induction Hreach as [p | p b r p' _ IH Hstep].
  - unfold parser_ok, reset, count_ok, message_or_none; simpl. auto.
  - apply (machine_preserves p p' b r IH Hstep).
Qed.
End MachineFacts.

(** ** The two revisions as instances *)

Lemma rev2_expected_count (m e : Z) :
  message_or_none m -> Rev2.expected_bytes m = Some e -> count_ok e.
Proof.
  intros Hm He.
  assert (Hb : is_byte m) by (unfold is_byte; destruct Hm; lia).
  check_byte (fun m => implb ((m =? 0) || ((0x80 <=? m) && (m <? 0xF8)))
    match Rev2.expected_bytes m with
    | Some e => (e =? -1) || (e =? 0) || (e =? 1) || (e =? 2)
    | None => true
    end) Hb.
  rewrite He in Hchk.
  replace ((m =? 0) || ((0x80 <=? m) && (m <? 0xF8))) with true in Hchk
    by (symmetry; destruct Hm; lia).
  simpl in Hchk. unfold count_ok. lia.
Qed.

Lemma rev2_expected_defined (m : Z) :
  message_or_none m -> Rev2.expected_bytes m <> None.
Proof.
  intros [-> | Hm]; [discriminate |].
  apply rev2_lookup_in_bounds. lia.
Qed.

Lemma rev1_expected_count (m e : Z) :
  message_or_none m -> Rev1.expected_bytes m = Some e -> count_ok e.
Proof.
  intros Hm He.
  assert (Hb : is_byte m) by (unfold is_byte; destruct Hm; lia).
  check_byte (fun m => implb ((m =? 0) || ((0x80 <=? m) && (m <? 0xF8)))
    match Rev1.expected_bytes m with
    | Some e => (e =? -1) || (e =? 0) || (e =? 1) || (e =? 2)
    | None => true
    end) Hb.
  rewrite He in Hchk.
  replace ((m =? 0) || ((0x80 <=? m) && (m <? 0xF8))) with true in Hchk
    by (symmetry; destruct Hm; lia).
  simpl in Hchk. unfold count_ok. lia.
Qed.

Lemma rev1_expected_defined (m : Z) :
  message_or_none m -> m <> MIDI.ENDEX -> Rev1.expected_bytes m <> None.
Proof.
  unfold MIDI.ENDEX. intros [-> | Hm] Hne; [discriminate |].
  apply rev1_lookup_in_bounds. lia.
Qed.

(** Second revision: the whole of the SYSEX passthrough.  [SYSEX] is
    answered at once; any run of data bytes after it is answered with 0s and
    leaves the parser as it was; [ENDEX] is then answered at once. *)
Lemma rev2_sysex_passthrough (p : Parser) (ds : list Z) :
  Forall is_data ds ->
  exists p1 p2,
    Rev2.accept p MIDI.SYSEX = Some (MIDI.SYSEX, p1)
    /\ feed Rev2.accept p1 ds = Some (map (fun _ => 0) ds, p1)
    /\ Rev2.accept p1 MIDI.ENDEX = Some (MIDI.ENDEX, p2).
Proof.
  intros Hds.
  exists {| mMessage := MIDI.SYSEX; mExpected := -1; mData := mData p |}.
  exists {| mMessage := MIDI.ENDEX; mExpected := 0; mData := mData p |}.
  split; [| split].
  - exact (machine_sysex Rev2.is_rtmsg Rev2.is_msg Rev2.expected_bytes
             rev2_is_rtmsg_spec rev2_is_msg_spec p eq_refl).
  - apply (machine_hold_stream Rev2.is_rtmsg Rev2.is_msg Rev2.expected_bytes
             rev2_is_rtmsg_spec rev2_is_msg_spec); [simpl; lia | exact Hds].
  - exact (machine_endex Rev2.is_rtmsg Rev2.is_msg Rev2.expected_bytes
             rev2_is_rtmsg_spec rev2_is_msg_spec _ eq_refl).
Qed.

(** First revision: the same two first steps. *)
Lemma rev1_sysex_hold (p : Parser) (ds : list Z) :
  Forall is_data ds ->
  exists p1,
    Rev1.accept p MIDI.SYSEX = Some (MIDI.SYSEX, p1)
    /\ feed Rev1.accept p1 ds = Some (map (fun _ => 0) ds, p1).
Proof.
  intros Hds.
  exists {| mMessage := MIDI.SYSEX; mExpected := -1; mData := mData p |}.
  split.
  - exact (machine_sysex Rev1.is_rtcmd Rev1.is_cmd Rev1.expected_bytes
             rev1_is_rtcmd_spec rev1_is_cmd_spec p eq_refl).
  - apply (machine_hold_stream Rev1.is_rtcmd Rev1.is_cmd Rev1.expected_bytes
             rev1_is_rtcmd_spec rev1_is_cmd_spec); [simpl; lia | exact Hds].
Qed.

(** First revision: whatever the parser holds, [accept] on [ENDEX] goes
    through the look-up past the end of the table. *)
Lemma rev1_accept_endex_undefined (p : Parser) :
  Rev1.accept p MIDI.ENDEX = None.
Proof. reflexivity. Qed.

(** * The claims of the specification *)

(** C1 (code defect in the first revision).  The claim: for a channel
    message, [expected_bytes] answers 2, except for program change and
    channel pressure, where it answers 1.  The second revision does so
    ([rev2_expected_bytes_channel]).  In the first revision the table holds
    2 at the channel-pressure slot, so [expected_bytes CH_TOUCH] is 2. *)
Theorem channel_pressure_count :
  Z.land (Z.shiftr MIDI.CH_TOUCH 4) 7 = 5
  /\ index Rev1.midi_msg_bytes 5 = Some 2
  /\ Rev1.expected_bytes MIDI.CH_TOUCH = Some 2
  /\ Rev2.expected_bytes MIDI.CH_TOUCH = Some 1.
Proof. repeat split. Qed.

(** C2 (code defect in the first revision).  The claim lists the count of
    each system-common message, [ENDEX] included with 0.  The second
    revision has all eight ([rev2_expected_bytes_system_common]).  The first
    revision has the first seven ([rev1_expected_bytes_system_common]);
    its table has no eighth entry, so the look-up for [ENDEX] is outside
    the table. *)
Theorem endex_count :
  Rev1.expected_bytes MIDI.ENDEX = None
  /\ Rev2.expected_bytes MIDI.ENDEX = Some 0.
Proof. split; reflexivity. Qed.

(** C3.  The two versions of [midi_msg_bytes] have seven entries each and
    agree at every slot except slot 5, the slot of channel pressure, where
    the first revision holds 2 and the second holds 1. *)
Theorem channel_tables_differ_at_channel_pressure :
  length Rev1.midi_msg_bytes = 7%nat
  /\ length Rev2.midi_msg_bytes = 7%nat
  /\ Z.land (Z.shiftr MIDI.CH_TOUCH 4) 7 = 5
  /\ index Rev1.midi_msg_bytes 5 = Some 2
  /\ index Rev2.midi_msg_bytes 5 = Some 1
  /\ forall i : Z,
       i = 5 \/ index Rev1.midi_msg_bytes i = index Rev2.midi_msg_bytes i.
Proof.
  do 5 (split; [reflexivity |]).
  intros i. unfold index.
  destruct (Z.ltb_spec i 0) as [Hneg | Hpos]; [right; reflexivity |].
  destruct (Z.eq_dec i 5) as [H5 | H5]; [left; exact H5 | right].
  assert (Hn : (Z.to_nat i <> 5)%nat) by lia.
  destruct (Z.to_nat i) as [| [| [| [| [| [| [| n]]]]]]];
    try reflexivity. congruence.
Qed.

(** C4.  A realtime byte (0xF8 to 0xFF) fed to [accept], in any parser
    state, is returned at once, and the parser ([mMessage], [mExpected],
    both bytes of [mData]) is left as it was.  Both revisions. *)
Theorem accept_realtime (p : Parser) (b : Z) :
  0xF8 <= b <= 0xFF ->
  Rev1.accept p b = Some (b, p) /\ Rev2.accept p b = Some (b, p).
Proof.
  intros Hb.
  assert (Hu : uint8 b = b) by (apply uint8_of_byte; unfold is_byte; lia).
  split.
  - rewrite rev1_accept_machine.
    rewrite (machine_realtime _ _ _ rev1_is_rtcmd_spec) by (rewrite Hu; lia).
    rewrite Hu. reflexivity.
  - rewrite rev2_accept_machine.
    rewrite (machine_realtime _ _ _ rev2_is_rtmsg_spec) by (rewrite Hu; lia).
    rewrite Hu. reflexivity.
Qed.

(** A realtime byte in the middle of a note-on message. *)
Lemma accept_realtime_witness :
  Rev1.accept {| mMessage := 0x90; mExpected := 1; mData := (0x40, 0) |}
    MIDI.RT_CLOCK
    = Some (MIDI.RT_CLOCK,
            {| mMessage := 0x90; mExpected := 1; mData := (0x40, 0) |})
  /\ Rev2.accept {| mMessage := 0x90; mExpected := 1; mData := (0x40, 0) |}
       MIDI.RT_CLOCK
     = Some (MIDI.RT_CLOCK,
             {| mMessage := 0x90; mExpected := 1; mData := (0x40, 0) |}).
Proof. apply accept_realtime. unfold MIDI.RT_CLOCK. lia. Defined.

Lemma rev1_running_status (p0 p : Parser) (x m c d : Z) :
  0x80 <= m < 0xF0 -> Rev1.expected_bytes m = Some 2 ->
  is_data c -> is_data d ->
  Rev1.accept p0 x = Some (m, p) ->
  runs_again Rev1.accept p m c d.
Proof.
  intros Hm Hexp Hc Hd Hstep.
  rewrite rev1_accept_machine in Hstep.
  apply (machine_completed _ _ _ rev1_is_rtcmd_spec rev1_is_cmd_spec)
    in Hstep; [| lia].
  destruct Hstep as [Hmsg Hcnt].
  assert (He : mExpected p = 2) by congruence.
  destruct (machine_two_data _ _ _ rev1_is_rtcmd_spec rev1_is_cmd_spec
              p m c d Hmsg He Hexp Hc Hd) as [H1 H2].
  split; [exact He |].
  exists {| mMessage := m; mExpected := 1; mData := (c, snd (mData p)) |}.
  exists {| mMessage := m; mExpected := 2; mData := (c, d) |}.
  split; [exact H1 | split; [exact H2 |]]. repeat split.
Qed.

Lemma rev2_running_status (p0 p : Parser) (x m c d : Z) :
  0x80 <= m < 0xF0 -> Rev2.expected_bytes m = Some 2 ->
  is_data c -> is_data d ->
  Rev2.accept p0 x = Some (m, p) ->
  runs_again Rev2.accept p m c d.
Proof.
  intros Hm Hexp Hc Hd Hstep.
  rewrite rev2_accept_machine in Hstep.
  apply (machine_completed _ _ _ rev2_is_rtmsg_spec rev2_is_msg_spec)
    in Hstep; [| lia].
  destruct Hstep as [Hmsg Hcnt].
  assert (He : mExpected p = 2) by congruence.
  destruct (machine_two_data _ _ _ rev2_is_rtmsg_spec rev2_is_msg_spec
              p m c d Hmsg He Hexp Hc Hd) as [H1 H2].
  split; [exact He |].
  exists {| mMessage := m; mExpected := 1; mData := (c, snd (mData p)) |}.
  exists {| mMessage := m; mExpected := 2; mData := (c, d) |}.
  split; [exact H1 | split; [exact H2 |]]. repeat split.
Qed.

(** C5.  Running status.  Let [m] be a channel message with two parameter
    bytes (any channel message other than program change and channel
    pressure), and let [p] be the parser left by a call of [accept] that
    returned [m].  Then [p] is armed for two bytes again, and feeding two
    data bytes [c], [d] answers 0 and then [m], with [c] in [mData[0]] and
    [d] in [mData[1]].  Both revisions. *)
Theorem running_status (m c d : Z) :
  0x80 <= m < 0xF0 ->
  MIDI.msg_value m <> MIDI.PROG_CHANGE ->
  MIDI.msg_value m <> MIDI.CH_TOUCH ->
  is_data c -> is_data d ->
  (forall p0 x p,
     Rev1.accept p0 x = Some (m, p) -> runs_again Rev1.accept p m c d)
  /\ (forall p0 x p,
     Rev2.accept p0 x = Some (m, p) -> runs_again Rev2.accept p m c d).
Proof.
  intros Hm Hpc Hct Hc Hd.
  apply Z.eqb_neq in Hpc. apply Z.eqb_neq in Hct.
  split; intros p0 x p Hstep.
  - apply (rev1_running_status p0 p x); auto.
    destruct (rev1_expected_bytes_channel m Hm) as [_ ->].
    rewrite Hpc. reflexivity.
  - apply (rev2_running_status p0 p x); auto.
    destruct (rev2_expected_bytes_channel m Hm) as [_ ->].
    unfold channel_count. rewrite Hpc, Hct. reflexivity.
Qed.

(** The stream [NOTE_ON, 0x40, 0x7F] followed by the bare pair
    [0x41, 0x00]. *)
Lemma running_status_witness :
  runs_again Rev2.accept
    {| mMessage := 0x90; mExpected := 2; mData := (0x40, 0x7F) |}
    0x90 0x41 0x00.
Proof.
  refine (proj2 (running_status 0x90 0x41 0x00 _ _ _ _ _)
            {| mMessage := 0x90; mExpected := 1; mData := (0x40, 0) |}
            0x7F _ _);
    try (unfold is_data; lia); try (vm_compute; congruence).
Defined.

(** ** Reachable parsers *)

Lemma feed_reachable (step : Parser -> Z -> option (Z * Parser))
    (bytes : list Z) :
  forall p rs p',
    reachable step p -> feed step p bytes = Some (rs, p') ->
    reachable step p'.
Proof.
  induction bytes as [| b rest IH]; intros p rs p' Hp Hfeed; simpl in Hfeed.
  - injection Hfeed as _ <-. exact Hp.
  - destruct (step p b) as [[r q] |] eqn:Hstep; simpl in Hfeed;
      [| discriminate].
    destruct (feed step q rest) as [[rs' q'] |] eqn:Hrest; simpl in Hfeed;
      [| discriminate].
    injection Hfeed as _ <-.
    apply (IH q rs' q'); [| exact Hrest].
    apply (reach_accept step p b r q Hp Hstep).
Qed.

Lemma rev2_reachable_ok (p : Parser) :
  reachable Rev2.accept p -> parser_ok Rev2.expected_bytes p.
Proof.
  apply (reachable_parser_ok Rev2.is_rtmsg Rev2.is_msg Rev2.expected_bytes
           rev2_is_rtmsg_spec rev2_is_msg_spec rev2_expected_count).
  discriminate.
Qed.

Lemma rev1_reachable_ok (p : Parser) :
  reachable Rev1.accept p -> parser_ok Rev1.expected_bytes p.
Proof.
  apply (reachable_parser_ok Rev1.is_rtcmd Rev1.is_cmd Rev1.expected_bytes
           rev1_is_rtcmd_spec rev1_is_cmd_spec rev1_expected_count).
  discriminate.
Qed.

(** What [machine_preserves] says of one call, in the words of
    [step_frame]. *)
Lemma machine_step_frame (is_rt is_m : Z -> bool) (expected : Z -> option Z)
    (p p' : Parser) (c r : Z) :
  (forall b, is_byte b -> is_rt b = (0xF8 <=? b)) ->
  (forall b, is_byte b -> is_m b = (0x80 <=? b)) ->
  (forall m e, message_or_none m -> expected m = Some e -> count_ok e) ->
  parser_ok expected p ->
  machine is_rt is_m expected p c = Some (r, p') ->
  step_frame is_rt is_m p c p'.
Proof.
  intros Hrt Hm Hcount Hok Hstep.
  destruct (machine_preserves is_rt is_m expected Hrt Hm Hcount
              p p' c r Hok Hstep) as (Hok' & _ & Hmsg & Hdata).
  pose proof (uint8_is_byte c) as Hb.
  unfold step_frame. rewrite (Hrt _ Hb), (Hm _ Hb).
  split; [apply Hok' | split].
  - intros Hne. destruct (Hmsg Hne) as [Hr ->].
    split; [apply Z.leb_le; lia | split; [apply Z.leb_gt; lia | reflexivity]].
  - destruct Hdata as [Hd | (Hlt & Hidx & Hst)]; [left; exact Hd | right].
    split; [apply Z.leb_gt; lia | split; assumption].
Qed.

(** First revision: the invariants hold along every call that has a
    defined result, and a call has one unless the byte fed is [ENDEX]. *)
Lemma rev1_parser_invariants (p : Parser) :
  reachable Rev1.accept p ->
  count_ok (mExpected p)
  /\ (forall c r p',
        Rev1.accept p c = Some (r, p') ->
        step_frame Rev1.is_rtcmd Rev1.is_cmd p c p')
  /\ (forall c, uint8 c <> MIDI.ENDEX ->
        exists r p', Rev1.accept p c = Some (r, p')).
Proof.
  intros Hreach. pose proof (rev1_reachable_ok p Hreach) as Hok.
  split; [apply Hok | split].
  - intros c r p' Hstep.
    exact (machine_step_frame _ _ _ p p' c r rev1_is_rtcmd_spec
             rev1_is_cmd_spec rev1_expected_count Hok Hstep).
  - intros c Hne.
    apply (machine_defined Rev1.is_rtcmd Rev1.is_cmd Rev1.expected_bytes
             rev1_is_rtcmd_spec rev1_is_cmd_spec p c Hok).
    intros Hr. apply rev1_expected_defined; [right; lia | exact Hne].
Qed.

(** C6 (code defect in the first revision).  The claim: [SYSEX] is answered
    at once, the data bytes that follow are answered with 0 and change
    nothing, and [ENDEX] is then answered at once.  The second revision does
    all of it ([rev2_sysex_passthrough]).  The first revision does the first
    two ([rev1_sysex_hold]); on [ENDEX] it looks up the count past the end
    of its seven-entry table, so the call has no defined result. *)
Theorem endex_after_sysex :
  feed Rev1.accept new_parser [MIDI.SYSEX; 0x12; 0x34]
    = Some ([MIDI.SYSEX; 0; 0],
            {| mMessage := MIDI.SYSEX; mExpected := -1; mData := (0, 0) |})
  /\ Rev1.accept
       {| mMessage := MIDI.SYSEX; mExpected := -1; mData := (0, 0) |}
       MIDI.ENDEX = None
  /\ feed Rev2.accept new_parser [MIDI.SYSEX; 0x12; 0x34; MIDI.ENDEX]
     = Some ([MIDI.SYSEX; 0; 0; MIDI.ENDEX],
             {| mMessage := MIDI.ENDEX; mExpected := 0; mData := (0, 0) |}).
Proof. repeat split. Qed.

(** C7.  Second revision.  In every parser reachable from [reset] by calls
    of [accept]: [mExpected] is one of -1, 0, 1, 2; every further call has a
    defined result (in particular, a store into [mData] is at index 0 or 1),
    and what it may change is described by [step_frame]: [mExpected] stays
    one of the four values, [mMessage] changes only on a message byte that
    is not a realtime byte, and [mData] changes only by a store of a data
    byte at index 0 or 1. *)
Theorem parser_invariants (p : Parser) :
  reachable Rev2.accept p ->
  count_ok (mExpected p)
  /\ forall c, exists r p',
       Rev2.accept p c = Some (r, p')
       /\ step_frame Rev2.is_rtmsg Rev2.is_msg p c p'.
Proof.
  intros Hreach. pose proof (rev2_reachable_ok p Hreach) as Hok.
  split; [apply Hok |]. intros c.
  destruct (machine_defined Rev2.is_rtmsg Rev2.is_msg Rev2.expected_bytes
              rev2_is_rtmsg_spec rev2_is_msg_spec p c Hok) as (r & p' & Hstep).
  { intros Hr. apply rev2_expected_defined. right; lia. }
  exists r, p'. split; [exact Hstep |].
  exact (machine_step_frame _ _ _ p p' c r rev2_is_rtmsg_spec
           rev2_is_msg_spec rev2_expected_count Hok Hstep).
Qed.

(** The parser in the middle of a note-on message. *)
Lemma parser_invariants_witness :
  count_ok (mExpected {| mMessage := 0x90; mExpected := 1;
                         mData := (0x40, 0) |})
  /\ forall c, exists r p',
       Rev2.accept {| mMessage := 0x90; mExpected := 1; mData := (0x40, 0) |}
         c = Some (r, p')
       /\ step_frame Rev2.is_rtmsg Rev2.is_msg
            {| mMessage := 0x90; mExpected := 1; mData := (0x40, 0) |} c p'.
Proof.
  apply parser_invariants.
  apply (feed_reachable Rev2.accept [0x90; 0x40] new_parser [0; 0]);
    [apply reach_reset | reflexivity].
Defined.

(** C8.  A data byte fed while [mExpected] is 0 and [mMessage] still holds
    the value 0 that [reset] stored is not written to [mData], and the call
    answers 0.  Both revisions. *)
Theorem stray_data_byte (p : Parser) (d : Z) :
  mExpected p = 0 -> mMessage p = 0 -> is_data d ->
  (exists p', Rev1.accept p d = Some (MIDI.NONE, p')
              /\ mData p' = mData p /\ mMessage p' = mMessage p)
  /\ (exists p', Rev2.accept p d = Some (MIDI.NONE, p')
              /\ mData p' = mData p /\ mMessage p' = mMessage p).
Proof.
  intros He Hm Hd. split.
  - exists {| mMessage := 0; mExpected := 2; mData := mData p |}.
    split; [| simpl; auto].
    exact (machine_idle_data Rev1.is_rtcmd Rev1.is_cmd Rev1.expected_bytes
             rev1_is_rtcmd_spec rev1_is_cmd_spec p d 2 He Hm eq_refl Hd).
  - exists {| mMessage := 0; mExpected := 2; mData := mData p |}.
    split; [| simpl; auto].
    exact (machine_idle_data Rev2.is_rtmsg Rev2.is_msg Rev2.expected_bytes
             rev2_is_rtmsg_spec rev2_is_msg_spec p d 2 He Hm eq_refl Hd).
Qed.

(** A data byte fed to a parser that has just been constructed. *)
Lemma stray_data_byte_witness :
  (exists p', Rev1.accept new_parser 0x40 = Some (MIDI.NONE, p')
              /\ mData p' = mData new_parser
              /\ mMessage p' = mMessage new_parser)
  /\ (exists p', Rev2.accept new_parser 0x40 = Some (MIDI.NONE, p')
              /\ mData p' = mData new_parser
              /\ mMessage p' = mMessage new_parser).
Proof.
  apply stray_data_byte; [reflexivity | reflexivity | unfold is_data; lia].
Defined.

(** C9 (code defect in the first revision).  The claim: the look-ups of
    [expected_bytes] stay inside the tables for every byte from 0x80 to
    0xF7, in both revisions.  The second revision does
    ([rev2_lookup_in_bounds]); the first does for every byte but [ENDEX]
    ([rev1_lookup_in_bounds]).  For [ENDEX] the index is 7, and the first
    revision declares [midi_sysmsg_bytes] with seven entries. *)
Theorem endex_index_bounds :
  Z.land MIDI.ENDEX 0x7 = 7
  /\ Z.of_nat (length Rev1.midi_sysmsg_bytes) = 7
  /\ index Rev1.midi_sysmsg_bytes (Z.land MIDI.ENDEX 0x7) = None
  /\ Z.of_nat (length Rev2.midi_sysmsg_bytes) = 8
  /\ index Rev2.midi_sysmsg_bytes (Z.land MIDI.ENDEX 0x7) = Some 0.
Proof. repeat split. Qed.

(** Second revision: in every parser reachable from [reset], whatever byte
    is fed, [accept] has a result, and the result is 0 or a byte with the
    high bit set, never a value from 0x01 to 0x7F. *)
Lemma rev2_accept_result (p : Parser) (c : Z) :
  reachable Rev2.accept p ->
  exists r p', Rev2.accept p c = Some (r, p')
               /\ (r = MIDI.NONE \/ 0x80 <= r <= 0xFF).
Proof.
  intros Hreach. pose proof (rev2_reachable_ok p Hreach) as Hok.
  destruct (machine_defined Rev2.is_rtmsg Rev2.is_msg Rev2.expected_bytes
              rev2_is_rtmsg_spec rev2_is_msg_spec p c Hok)
    as (r & p' & Hstep).
  { intros Hr. apply rev2_expected_defined. right; lia. }
  exists r, p'. split; [exact Hstep |].
  apply (machine_preserves Rev2.is_rtmsg Rev2.is_msg Rev2.expected_bytes
           rev2_is_rtmsg_spec rev2_is_msg_spec rev2_expected_count
           p p' c r Hok Hstep).
Qed.

(** First revision: the same for every byte other than [ENDEX]. *)
Lemma rev1_accept_result (p : Parser) (c : Z) :
  reachable Rev1.accept p -> uint8 c <> MIDI.ENDEX ->
  exists r p', Rev1.accept p c = Some (r, p')
               /\ (r = MIDI.NONE \/ 0x80 <= r <= 0xFF).
Proof.
  intros Hreach Hne. pose proof (rev1_reachable_ok p Hreach) as Hok.
  destruct (proj2 (proj2 (rev1_parser_invariants p Hreach)) c Hne)
    as (r & p' & Hstep).
  exists r, p'. split; [exact Hstep |].
  apply (machine_preserves Rev1.is_rtcmd Rev1.is_cmd Rev1.expected_bytes
           rev1_is_rtcmd_spec rev1_is_cmd_spec rev1_expected_count
           p p' c r Hok Hstep).
Qed.

(** C10 (code defect in the first revision).  The claim: in every parser
    reachable from [reset], whatever byte is fed, [accept] answers 0 or a
    byte with the high bit set.  The second revision does
    ([rev2_accept_result]); the first does for every byte but [ENDEX]
    ([rev1_accept_result]).  On [ENDEX], already in the parser [reset]
    leaves, the first revision takes its count from past the end of the
    seven-entry table, so the call has no defined answer, and neither has
    any call after it. *)
Theorem accept_result_endex :
  Rev1.accept new_parser MIDI.ENDEX = None
  /\ feed Rev1.accept new_parser [MIDI.ENDEX; 0x05; 0x01] = None
  /\ feed Rev2.accept new_parser [MIDI.ENDEX; 0x05; 0x01]
     = Some ([MIDI.ENDEX; MIDI.ENDEX; MIDI.ENDEX],
             {| mMessage := MIDI.ENDEX; mExpected := 0; mData := (0, 0) |}).
Proof. repeat split. Qed.

(** * Further properties of the parser *)

Lemma last_cons (ds : list Z) :
  forall c d, last (c :: ds) d = last ds c.
Proof.
  induction ds as [| z ds IH]; intros c d; [reflexivity |].
  change (last (c :: z :: ds) d) with (last (z :: ds) d).
  rewrite (IH z d), (IH z c). reflexivity.
Qed.

(** ** Whole messages, on the shared control flow *)

Section MachineStreams.
Variables is_rt is_m : Z -> bool.
Variable expected : Z -> option Z.
Hypothesis is_rt_spec : forall b, is_byte b -> is_rt b = (0xF8 <=? b).
Hypothesis is_m_spec : forall b, is_byte b -> is_m b = (0x80 <=? b).

Local Abbreviation step := (machine is_rt is_m expected).

(** A message byte that expects parameters arms the parser and answers 0,
    whatever the parser was doing. *)
Lemma machine_start_pending (p : Parser) (m e : Z) :
  0x80 <= m < 0xF8 -> expected m = Some e -> 0 < e ->
  step p m
    = Some (0, {| mMessage := m; mExpected := e; mData := mData p |}).
Proof.
  intros Hm Hexp He.
  assert (Hu : uint8 m = m) by (apply uint8_of_byte; unfold is_byte; lia).
  rewrite (machine_message _ _ _ is_rt_spec is_m_spec) by (rewrite Hu; lia).
  rewrite Hu, Hexp. simpl.
  destruct (Z.ltb_spec e 0); [lia |].
  unfold machine_finish. simpl.
  destruct (Z.eqb_spec e 0); [lia | reflexivity].
Qed.

(** A message byte that expects no parameter is answered at once. *)
Lemma machine_start_complete (p : Parser) (m : Z) :
  0x80 <= m < 0xF8 -> expected m = Some 0 ->
  step p m
    = Some (m, {| mMessage := m; mExpected := 0; mData := mData p |}).
Proof.
  intros Hm Hexp.
  assert (Hu : uint8 m = m) by (apply uint8_of_byte; unfold is_byte; lia).
  rewrite (machine_message _ _ _ is_rt_spec is_m_spec) by (rewrite Hu; lia).
  rewrite Hu, Hexp. simpl. unfold machine_finish. simpl.
  rewrite Hexp. reflexivity.
Qed.

(** The three ways a data byte is taken, by the pending count. *)
Lemma machine_data_first (p : Parser) (c : Z) :
  mExpected p = 2 -> is_data c ->
  step p c
    = Some (0, {| mMessage := mMessage p; mExpected := 1;
                  mData := (c, snd (mData p)) |}).
Proof.
  intros He Hc. unfold is_data in Hc.
  assert (Hu : uint8 c = c) by (apply uint8_of_byte; unfold is_byte; lia).
  rewrite (machine_data _ _ _ is_rt_spec is_m_spec) by (rewrite Hu; lia).
  rewrite Hu, He. reflexivity.
Qed.

Lemma machine_data_last (p : Parser) (c e : Z) :
  mExpected p = 1 -> expected (mMessage p) = Some e -> is_data c ->
  step p c
    = Some (mMessage p, {| mMessage := mMessage p; mExpected := e;
                           mData := (fst (mData p), c) |}).
Proof.
  intros He Hexp Hc. unfold is_data in Hc.
  assert (Hu : uint8 c = c) by (apply uint8_of_byte; unfold is_byte; lia).
  rewrite (machine_data _ _ _ is_rt_spec is_m_spec) by (rewrite Hu; lia).
  rewrite Hu, He. simpl. unfold machine_finish. simpl.
  rewrite Hexp. reflexivity.
Qed.

Lemma machine_data_idle (p : Parser) (c e : Z) :
  mExpected p = 0 -> expected (mMessage p) = Some e -> is_data c ->
  step p c
    = Some (mMessage p, {| mMessage := mMessage p; mExpected := e;
                           mData := mData p |}).
Proof.
  intros He Hexp Hc. unfold is_data in Hc.
  assert (Hu : uint8 c = c) by (apply uint8_of_byte; unfold is_byte; lia).
  rewrite (machine_data _ _ _ is_rt_spec is_m_spec) by (rewrite Hu; lia).
  rewrite He. simpl. unfold machine_finish.
  rewrite He, Hexp. reflexivity.
Qed.

(** A message with two parameters: start byte and two data bytes. *)
Lemma machine_two_param (p : Parser) (m a b : Z) :
  0x80 <= m < 0xF8 -> expected m = Some 2 -> is_data a -> is_data b ->
  feed step p [m; a; b]
    = Some ([0; 0; m],
            {| mMessage := m; mExpected := 2; mData := (a, b) |}).
Proof.
  intros Hm Hexp Ha Hb. cbn [feed].
  rewrite (machine_start_pending p m 2 Hm Hexp) by lia. cbn [bind fst snd].
  rewrite machine_data_first by (auto; reflexivity). cbn [bind fst snd].
  rewrite (machine_data_last _ b 2) by (auto; reflexivity).
  reflexivity.
Qed.

(** A parser armed for one byte answers the message to every data byte of a
    run, each time with that byte in [mData[1]]. *)
Lemma machine_one_param_run (m : Z) (ds : list Z) :
  expected m = Some 1 -> Forall is_data ds ->
  forall a d,
    feed step {| mMessage := m; mExpected := 1; mData := (a, d) |} ds
      = Some (map (fun _ => m) ds,
              {| mMessage := m; mExpected := 1; mData := (a, last ds d) |}).
Proof.
  intros Hexp Hds. induction Hds as [| c ds Hc Hds IH]; intros a d.
  - reflexivity.
  - cbn [feed].
    rewrite (machine_data_last _ c 1) by (auto; reflexivity).
    cbn [bind fst snd mMessage mData]. rewrite IH. cbn [bind fst snd map].
    rewrite last_cons. reflexivity.
Qed.

(** A parser that holds a message without parameters answers that message
    to every data byte of a run, and stores none of them. *)
Lemma machine_zero_param_run (m : Z) (ds : list Z) (d : array2) :
  expected m = Some 0 -> Forall is_data ds ->
  feed step {| mMessage := m; mExpected := 0; mData := d |} ds
    = Some (map (fun _ => m) ds,
            {| mMessage := m; mExpected := 0; mData := d |}).
Proof.
  intros Hexp Hds. induction Hds as [| c ds Hc Hds IH].
  - reflexivity.
  - cbn [feed].
    rewrite (machine_data_idle _ c 0) by (auto; reflexivity).
    cbn [bind fst snd mMessage mData]. rewrite IH. reflexivity.
Qed.
End MachineStreams.

(** ** What a caller observes, on the shared control flow *)

Section MachineObservations.
Variables is_rt is_m : Z -> bool.
Variable expected : Z -> option Z.

Local Abbreviation step := (machine is_rt is_m expected).

(** A non-zero answer that is not a realtime byte is the message the parser
    then holds, and the parser is armed with the count of that message. *)
Lemma machine_reports (p p' : Parser) (c r : Z) :
  step p c = Some (r, p') -> r <> 0 -> is_rt r = false ->
  mMessage p' = r /\ expected r = Some (mExpected p').
Proof.
  unfold machine. cbv zeta. intros Hstep Hr Hnrt.
  destruct (is_rt (uint8 c)) eqn:Hrt.
  { injection Hstep as <- <-. congruence. }
  destruct (is_m (uint8 c)).
  - destruct (expected (uint8 c)) as [e |] eqn:He; simpl in Hstep;
      [| discriminate].
    destruct (e <? 0).
    + injection Hstep as <- <-. simpl. auto.
    + apply finish_returns in Hstep.
      destruct Hstep as [[H0 _] | (Hm & _ & Hm' & _ & He')]; [congruence |].
      subst r. rewrite Hm'. auto.
  - destruct (0 <? mExpected p).
    + destruct (store (mData p) (2 - mExpected p) (uint8 c)) as [d |];
        simpl in Hstep; [| discriminate].
      apply finish_returns in Hstep.
      destruct Hstep as [[H0 _] | (Hm & _ & Hm' & _ & He')]; [congruence |].
      subst r. rewrite Hm'. auto.
    + apply finish_returns in Hstep.
      destruct Hstep as [[H0 _] | (Hm & _ & Hm' & _ & He')]; [congruence |].
      subst r. rewrite Hm'. auto.
Qed.

(** A realtime byte is answered with itself and changes nothing. *)
Lemma machine_skip_realtime (p : Parser) (c : Z) :
  is_rt (uint8 c) = true -> step p c = Some (uint8 c, p).
Proof. intros Hrt. unfold machine. cbv zeta. rewrite Hrt. reflexivity. Qed.

(** Realtime bytes are transparent: a stream with its realtime bytes taken
    out leaves the same parser and gets the same answers for the bytes that
    remain; the answers to the realtime bytes are those bytes. *)
Lemma feed_without_realtime (bytes : list Z) :
  forall p answers p',
    feed step p bytes = Some (answers, p') ->
    feed step p (filter (fun c => negb (is_rt (uint8 c))) bytes)
      = Some (answers_without is_rt bytes answers, p')
    /\ map snd (filter (fun cr => is_rt (uint8 (fst cr)))
                       (combine bytes answers))
       = map uint8 (filter (fun c => is_rt (uint8 c)) bytes).
Proof.
  unfold answers_without.
  induction bytes as [| c rest IH]; intros p answers p' Hfeed.
  - simpl in Hfeed. injection Hfeed as <- <-. split; reflexivity.
  - cbn [feed] in Hfeed.
    destruct (step p c) as [[r q] |] eqn:Hstep; cbn [bind fst snd] in Hfeed;
      [| discriminate].
    destruct (feed step q rest) as [[rs q'] |] eqn:Hrest;
      cbn [bind fst snd] in Hfeed; [| discriminate].
    injection Hfeed as <- <-.
    cbn [filter combine fst]. destruct (is_rt (uint8 c)) eqn:Hrt.
    + rewrite (machine_skip_realtime p c Hrt) in Hstep.
      injection Hstep as <- <-.
      destruct (IH p rs q' Hrest) as [Hkept Hrts].
      cbn [negb map snd]. split; [exact Hkept | f_equal; exact Hrts].
    + destruct (IH q rs q' Hrest) as [Hkept Hrts].
      cbn [negb map snd feed]. rewrite Hstep. cbn [bind fst snd].
      rewrite Hkept. split; [reflexivity | exact Hrts].
Qed.

Hypothesis is_rt_spec : forall b, is_byte b -> is_rt b = (0xF8 <=? b).
Hypothesis is_m_spec : forall b, is_byte b -> is_m b = (0x80 <=? b).

(** [accept] keeps both entries of [mData] below 0x80. *)
Lemma machine_keeps_data (p p' : Parser) (c r : Z) :
  step p c = Some (r, p') ->
  is_data (fst (mData p)) /\ is_data (snd (mData p)) ->
  is_data (fst (mData p')) /\ is_data (snd (mData p')).
Proof.
  intros Hstep [Ha Hb]. pose proof (uint8_is_byte c) as Hc.
  unfold is_byte in Hc.
  destruct (Z.le_gt_cases 0xF8 (uint8 c)) as [Hrt | Hnrt].
  { rewrite (machine_realtime _ _ _ is_rt_spec) in Hstep by exact Hrt.
    injection Hstep as _ <-. auto. }
  destruct (Z.le_gt_cases 0x80 (uint8 c)) as [Hmsg | Hdat].
  - rewrite (machine_message _ _ _ is_rt_spec is_m_spec) in Hstep by lia.
    destruct (expected (uint8 c)) as [e |]; simpl in Hstep; [| discriminate].
    destruct (e <? 0).
    + injection Hstep as _ <-. simpl. auto.
    + apply finish_returns in Hstep.
      destruct Hstep as [(_ & -> & _) | (_ & _ & _ & -> & _)]; simpl; auto.
  - rewrite (machine_data _ _ _ is_rt_spec is_m_spec) in Hstep by lia.
    destruct (0 <? mExpected p).
    + unfold store in Hstep.
      assert (Hu : is_data (uint8 c)) by (unfold is_data; lia).
      destruct (2 - mExpected p =? 0);
        [| destruct (2 - mExpected p =? 1); [| discriminate]];
        simpl in Hstep; apply finish_returns in Hstep;
        destruct Hstep as [(_ & -> & _) | (_ & _ & _ & -> & _)];
        simpl; auto.
    + apply finish_returns in Hstep.
      destruct Hstep as [(_ & -> & _) | (_ & _ & _ & -> & _)]; auto.
Qed.

Lemma reachable_keeps_data (p : Parser) :
  reachable step p ->
  is_data (fst (mData p)) /\ is_data (snd (mData p)).
Proof.
  intros Hreach. induction Hreach as [p | p b r p' _ IH Hstep].
  - simpl. unfold is_data. lia.
  - exact (machine_keeps_data p p' b r Hstep IH).
Qed.
End MachineObservations.

(** [get_int14] on two 7-bit entries: the entries do not overlap, so the
    bitwise or is a sum, and it fits 14 bits. *)
Lemma get_int14_sum (p : Parser) :
  is_data (fst (mData p)) -> is_data (snd (mData p)) ->
  get_int14 p = get_dataA p + 128 * get_dataB p
  /\ 0 <= get_int14 p < 16384.
Proof.
  unfold get_int14, get_dataA, get_dataB, is_data.
  destruct (mData p) as [a b]. cbn [fst snd]. intros Ha Hb.
  assert (Hdisj : Z.land (Z.shiftl b 7) a = 0).
  { apply Z.bits_inj'. intros n Hn. rewrite Z.land_spec, Z.bits_0.
    destruct (Z.lt_ge_cases n 7).
    - rewrite Z.shiftl_spec_low by lia. reflexivity.
    - rewrite (Z.bits_above_log2 a n); [apply andb_false_r | lia |].
      destruct (Z.eq_dec a 0) as [-> | Hne]; [simpl; lia |].
      apply Z.lt_le_trans with 7; [| lia]. apply Z.log2_lt_pow2; lia. }
  rewrite <- Z.lxor_lor by exact Hdisj.
  rewrite <- Z.add_nocarry_lxor by exact Hdisj.
  rewrite Z.shiftl_mul_pow2 by lia. change (2 ^ 7) with 128.
  rewrite Z.mod_small by lia. lia.
Qed.

(** ** The header's classifiers *)

(** X1.  [is_sysmsg] / [is_syscmd] holds exactly of the bytes from the break
    point [SYS_MSGS] up to [RT_MSGS - 1], [is_rtmsg] / [is_rtcmd] exactly of
    the bytes from [RT_MSGS] up, and [is_msg] / [is_cmd] exactly of the bytes
    from 0x80 up: the mask tests of the header and the comparisons of
    [expected_bytes] draw the same lines, and every byte is in exactly one
    of the four classes (data, channel, system common, realtime). *)
Theorem byte_classes (b : Z) :
  is_byte b ->
  Rev2.is_msg b = (0x80 <=? b)
  /\ Rev2.is_sysmsg b = ((Rev2.SYS_MSGS <=? b) && (b <? Rev2.RT_MSGS))
  /\ Rev2.is_rtmsg b = (Rev2.RT_MSGS <=? b)
  /\ Rev1.is_cmd b = (0x80 <=? b)
  /\ Rev1.is_syscmd b = ((Rev1.SYS_MESSAGES <=? b) && (b <? Rev1.RT_MESSAGES))
  /\ Rev1.is_rtcmd b = (Rev1.RT_MESSAGES <=? b).
Proof.
  intros Hb.
  check_byte (fun b =>
    eqb (Rev2.is_sysmsg b) ((Rev2.SYS_MSGS <=? b) && (b <? Rev2.RT_MSGS))
    && eqb (Rev1.is_syscmd b)
         ((Rev1.SYS_MESSAGES <=? b) && (b <? Rev1.RT_MESSAGES))) Hb.
  apply andb_prop in Hchk. destruct Hchk as [H2 H1].
  apply eqb_prop in H1. apply eqb_prop in H2.
  split; [apply rev2_is_msg_spec, Hb |].
  split; [exact H2 |].
  split; [apply rev2_is_rtmsg_spec, Hb |].
  split; [apply rev1_is_cmd_spec, Hb |].
  split; [exact H1 | apply rev1_is_rtcmd_spec, Hb].
Qed.

(** [TUNE_REQ] is a system-common byte. *)
Lemma byte_classes_witness :
  Rev2.is_msg MIDI.TUNE_REQ = (0x80 <=? MIDI.TUNE_REQ)
  /\ Rev2.is_sysmsg MIDI.TUNE_REQ
     = ((Rev2.SYS_MSGS <=? MIDI.TUNE_REQ) && (MIDI.TUNE_REQ <? Rev2.RT_MSGS))
  /\ Rev2.is_rtmsg MIDI.TUNE_REQ = (Rev2.RT_MSGS <=? MIDI.TUNE_REQ)
  /\ Rev1.is_cmd MIDI.TUNE_REQ = (0x80 <=? MIDI.TUNE_REQ)
  /\ Rev1.is_syscmd MIDI.TUNE_REQ
     = ((Rev1.SYS_MESSAGES <=? MIDI.TUNE_REQ)
        && (MIDI.TUNE_REQ <? Rev1.RT_MESSAGES))
  /\ Rev1.is_rtcmd MIDI.TUNE_REQ = (Rev1.RT_MESSAGES <=? MIDI.TUNE_REQ).
Proof. apply byte_classes. unfold is_byte, MIDI.TUNE_REQ. lia. Defined.

(** X2.  A status byte built from an opcode nibble [k] and a channel [ch]
    splits back into them: [msg_value] gives the opcode part [16 * k],
    [msg_channel] gives [ch], and the two parts add up to the byte. *)
Theorem status_byte_split (k ch : Z) :
  0 <= k < 16 -> 0 <= ch < 16 ->
  MIDI.msg_value (16 * k + ch) = 16 * k
  /\ MIDI.msg_channel (16 * k + ch) = ch
  /\ MIDI.msg_value (16 * k + ch) + MIDI.msg_channel (16 * k + ch)
     = 16 * k + ch.
Proof.
  intros Hk Hch.
  assert (Hb : is_byte (16 * k + ch)) by (unfold is_byte; lia).
  check_byte (fun b => (MIDI.msg_value b =? 16 * (b / 16))
                       && (MIDI.msg_channel b =? b mod 16)) Hb.
  apply andb_prop in Hchk. destruct Hchk as [Hv Hc].
  apply Z.eqb_eq in Hv. apply Z.eqb_eq in Hc.
  assert (Hdiv : (16 * k + ch) / 16 = k)
    by (Z.div_mod_to_equations; lia).
  assert (Hmod : (16 * k + ch) mod 16 = ch)
    by (Z.div_mod_to_equations; lia).
  rewrite Hv, Hc, Hdiv, Hmod. auto.
Qed.

(** Note-on on channel 2. *)
Lemma status_byte_split_witness :
  MIDI.msg_value (16 * 9 + 2) = 16 * 9
  /\ MIDI.msg_channel (16 * 9 + 2) = 2
  /\ MIDI.msg_value (16 * 9 + 2) + MIDI.msg_channel (16 * 9 + 2)
     = 16 * 9 + 2.
Proof. apply status_byte_split; lia. Defined.

(** X3.  The parameter count of a channel message does not depend on its
    channel: [expected_bytes] gives a status byte the count of its
    [msg_value].  Both revisions. *)
Theorem count_ignores_channel (b : Z) :
  0x80 <= b < 0xF0 ->
  Rev1.expected_bytes b = Rev1.expected_bytes (MIDI.msg_value b)
  /\ Rev2.expected_bytes b = Rev2.expected_bytes (MIDI.msg_value b).
Proof.
  intros Hr. assert (Hb : is_byte b) by (unfold is_byte; lia).
  check_byte (fun b => implb ((0x80 <=? b) && (b <? 0xF0))
    (option_eqb (Rev1.expected_bytes b)
                (Rev1.expected_bytes (MIDI.msg_value b))
     && option_eqb (Rev2.expected_bytes b)
                   (Rev2.expected_bytes (MIDI.msg_value b)))) Hb.
  replace (0x80 <=? b) with true in Hchk by (symmetry; apply Z.leb_le; lia).
  replace (b <? 0xF0) with true in Hchk by (symmetry; apply Z.ltb_lt; lia).
  simpl in Hchk. apply andb_prop in Hchk. destruct Hchk as [H1 H2].
  split; apply option_eqb_eq; assumption.
Qed.

(** Control change on channel 15. *)
Lemma count_ignores_channel_witness :
  Rev1.expected_bytes 0xBF = Rev1.expected_bytes (MIDI.msg_value 0xBF)
  /\ Rev2.expected_bytes 0xBF = Rev2.expected_bytes (MIDI.msg_value 0xBF).
Proof. apply count_ignores_channel. lia. Defined.

(** ** Whole messages *)

(** X4.  A message with two parameter bytes.  In any parser state (idle, in
    the middle of another message, or holding after [SYSEX]), feeding a
    status byte whose count is 2 and then two data bytes answers 0, 0 and
    the status byte, and leaves the first data byte in [mData[0]], the second
    in [mData[1]] and the parser armed for running status.  Both
    revisions. *)
Theorem two_parameter_message (p : Parser) (m a b : Z) :
  0x80 <= m < 0xF8 -> is_data a -> is_data b ->
  (Rev1.expected_bytes m = Some 2 ->
     feed Rev1.accept p [m; a; b]
       = Some ([0; 0; m],
               {| mMessage := m; mExpected := 2; mData := (a, b) |}))
  /\ (Rev2.expected_bytes m = Some 2 ->
     feed Rev2.accept p [m; a; b]
       = Some ([0; 0; m],
               {| mMessage := m; mExpected := 2; mData := (a, b) |})).
Proof.
  intros Hm Ha Hb. split; intros Hexp.
  - exact (machine_two_param Rev1.is_rtcmd Rev1.is_cmd Rev1.expected_bytes
             rev1_is_rtcmd_spec rev1_is_cmd_spec p m a b Hm Hexp Ha Hb).
  - exact (machine_two_param Rev2.is_rtmsg Rev2.is_msg Rev2.expected_bytes
             rev2_is_rtmsg_spec rev2_is_msg_spec p m a b Hm Hexp Ha Hb).
Qed.

(** A note-on that arrives while the parser is one byte into a control
    change. *)
Lemma two_parameter_message_witness :
  feed Rev1.accept {| mMessage := 0xB0; mExpected := 1; mData := (7, 0) |}
    [0x92; 0x3C; 0x64]
    = Some ([0; 0; 0x92],
            {| mMessage := 0x92; mExpected := 2; mData := (0x3C, 0x64) |})
  /\ feed Rev2.accept {| mMessage := 0xB0; mExpected := 1; mData := (7, 0) |}
       [0x92; 0x3C; 0x64]
     = Some ([0; 0; 0x92],
             {| mMessage := 0x92; mExpected := 2; mData := (0x3C, 0x64) |}).
Proof.
  assert (Hm : 0x80 <= 0x92 < 0xF8) by lia.
  assert (Ha : is_data 0x3C) by (unfold is_data; lia).
  assert (Hb : is_data 0x64) by (unfold is_data; lia).
  destruct (two_parameter_message
              {| mMessage := 0xB0; mExpected := 1; mData := (7, 0) |}
              0x92 0x3C 0x64 Hm Ha Hb) as [H1 H2].
  split; [apply H1 | apply H2]; reflexivity.
Defined.

(** X5.  A message with one parameter byte.  In any parser state, feeding a
    status byte whose count is 1 and then a run of data bytes answers 0 to
    the status byte and the status byte to every data byte (running
    status).  Each data byte is stored in [mData[1]] ([get_dataB]);
    [mData[0]] keeps whatever it held before the message.  Both
    revisions. *)
Theorem one_parameter_message (p : Parser) (m d : Z) (ds : list Z) :
  0x80 <= m < 0xF8 -> is_data d -> Forall is_data ds ->
  (Rev1.expected_bytes m = Some 1 ->
     feed Rev1.accept p (m :: d :: ds)
       = Some (0 :: m :: map (fun _ => m) ds,
               {| mMessage := m; mExpected := 1;
                  mData := (fst (mData p), last ds d) |}))
  /\ (Rev2.expected_bytes m = Some 1 ->
     feed Rev2.accept p (m :: d :: ds)
       = Some (0 :: m :: map (fun _ => m) ds,
               {| mMessage := m; mExpected := 1;
                  mData := (fst (mData p), last ds d) |})).
Proof.
  intros Hm Hd Hds.
  assert (Hrun : Forall is_data (d :: ds)) by (constructor; assumption).
  destruct (mData p) as [a0 b0] eqn:Hdata.
  split; intros Hexp.
  - change (feed Rev1.accept p (m :: d :: ds))
      with (rp <- machine Rev1.is_rtcmd Rev1.is_cmd Rev1.expected_bytes p m ;;
            rq <- feed (machine Rev1.is_rtcmd Rev1.is_cmd Rev1.expected_bytes)
                    (snd rp) (d :: ds) ;;
            Some (fst rp :: fst rq, snd rq)).
    rewrite (machine_start_pending _ _ _ rev1_is_rtcmd_spec rev1_is_cmd_spec
               p m 1 Hm Hexp) by lia.
    cbn [bind fst snd]. rewrite Hdata.
    rewrite (machine_one_param_run _ _ _ rev1_is_rtcmd_spec rev1_is_cmd_spec
               m (d :: ds) Hexp Hrun a0 b0).
    cbn [bind fst snd map]. rewrite last_cons. reflexivity.
  - change (feed Rev2.accept p (m :: d :: ds))
      with (rp <- machine Rev2.is_rtmsg Rev2.is_msg Rev2.expected_bytes p m ;;
            rq <- feed (machine Rev2.is_rtmsg Rev2.is_msg Rev2.expected_bytes)
                    (snd rp) (d :: ds) ;;
            Some (fst rp :: fst rq, snd rq)).
    rewrite (machine_start_pending _ _ _ rev2_is_rtmsg_spec rev2_is_msg_spec
               p m 1 Hm Hexp) by lia.
    cbn [bind fst snd]. rewrite Hdata.
    rewrite (machine_one_param_run _ _ _ rev2_is_rtmsg_spec rev2_is_msg_spec
               m (d :: ds) Hexp Hrun a0 b0).
    cbn [bind fst snd map]. rewrite last_cons. reflexivity.
Qed.

(** Three program changes on channel 1, the status byte sent once. *)
Lemma one_parameter_message_witness :
  feed Rev1.accept {| mMessage := 0x90; mExpected := 2; mData := (60, 100) |}
    [0xC1; 5; 6; 7]
    = Some ([0; 0xC1; 0xC1; 0xC1],
            {| mMessage := 0xC1; mExpected := 1; mData := (60, 7) |})
  /\ feed Rev2.accept
       {| mMessage := 0x90; mExpected := 2; mData := (60, 100) |}
       [0xC1; 5; 6; 7]
     = Some ([0; 0xC1; 0xC1; 0xC1],
             {| mMessage := 0xC1; mExpected := 1; mData := (60, 7) |}).
Proof.
  assert (Hm : 0x80 <= 0xC1 < 0xF8) by lia.
  assert (Hd : is_data 5) by (unfold is_data; lia).
  assert (Hds : Forall is_data [6; 7])
    by (repeat constructor; unfold is_data; lia).
  destruct (one_parameter_message
              {| mMessage := 0x90; mExpected := 2; mData := (60, 100) |}
              0xC1 5 [6; 7] Hm Hd Hds) as [H1 H2].
  split; [apply H1 | apply H2]; reflexivity.
Defined.

(** X6.  A message without parameter bytes (a count of 0: the undefined
    system-common bytes, [TUNE_REQ], and in the second revision [ENDEX]) is
    answered at once, in any parser state.  While the parser holds it, every
    data byte that follows is answered with that same message again; none of
    them is stored, and the parser does not change. *)
Theorem zero_parameter_message (p : Parser) (m : Z) (ds : list Z) :
  0x80 <= m < 0xF8 -> Forall is_data ds ->
  (Rev1.expected_bytes m = Some 0 ->
     feed Rev1.accept p (m :: ds)
       = Some (m :: map (fun _ => m) ds,
               {| mMessage := m; mExpected := 0; mData := mData p |}))
  /\ (Rev2.expected_bytes m = Some 0 ->
     feed Rev2.accept p (m :: ds)
       = Some (m :: map (fun _ => m) ds,
               {| mMessage := m; mExpected := 0; mData := mData p |})).
Proof.
  intros Hm Hds. split; intros Hexp.
  - change (feed Rev1.accept p (m :: ds))
      with (rp <- machine Rev1.is_rtcmd Rev1.is_cmd Rev1.expected_bytes p m ;;
            rq <- feed (machine Rev1.is_rtcmd Rev1.is_cmd Rev1.expected_bytes)
                    (snd rp) ds ;;
            Some (fst rp :: fst rq, snd rq)).
    rewrite (machine_start_complete _ _ _ rev1_is_rtcmd_spec rev1_is_cmd_spec
               p m Hm Hexp).
    cbn [bind fst snd].
    rewrite (machine_zero_param_run _ _ _ rev1_is_rtcmd_spec rev1_is_cmd_spec
               m ds (mData p) Hexp Hds).
    reflexivity.
  - change (feed Rev2.accept p (m :: ds))
      with (rp <- machine Rev2.is_rtmsg Rev2.is_msg Rev2.expected_bytes p m ;;
            rq <- feed (machine Rev2.is_rtmsg Rev2.is_msg Rev2.expected_bytes)
                    (snd rp) ds ;;
            Some (fst rp :: fst rq, snd rq)).
    rewrite (machine_start_complete _ _ _ rev2_is_rtmsg_spec rev2_is_msg_spec
               p m Hm Hexp).
    cbn [bind fst snd].
    rewrite (machine_zero_param_run _ _ _ rev2_is_rtmsg_spec rev2_is_msg_spec
               m ds (mData p) Hexp Hds).
    reflexivity.
Qed.

(** A tune request followed by two stray data bytes. *)
Lemma zero_parameter_message_witness :
  feed Rev1.accept new_parser [MIDI.TUNE_REQ; 0x11; 0x22]
    = Some ([MIDI.TUNE_REQ; MIDI.TUNE_REQ; MIDI.TUNE_REQ],
            {| mMessage := MIDI.TUNE_REQ; mExpected := 0;
               mData := mData new_parser |})
  /\ feed Rev2.accept new_parser [MIDI.TUNE_REQ; 0x11; 0x22]
     = Some ([MIDI.TUNE_REQ; MIDI.TUNE_REQ; MIDI.TUNE_REQ],
             {| mMessage := MIDI.TUNE_REQ; mExpected := 0;
                mData := mData new_parser |}).
Proof.
  assert (Hm : 0x80 <= MIDI.TUNE_REQ < 0xF8) by (unfold MIDI.TUNE_REQ; lia).
  assert (Hds : Forall is_data [0x11; 0x22])
    by (repeat constructor; unfold is_data; lia).
  destruct (zero_parameter_message new_parser MIDI.TUNE_REQ [0x11; 0x22]
              Hm Hds) as [H1 H2].
  split; [apply H1 | apply H2]; reflexivity.
Defined.

(** ** Realtime bytes in a stream *)

(** X7.  Realtime bytes are transparent.  Take any stream that the parser
    answers from any state.  The same stream with its realtime bytes taken
    out leaves the parser in the same state and gets, byte for byte, the
    same answers; and the answers to the realtime bytes are those bytes, in
    order.  Both revisions. *)
Theorem realtime_transparent (bytes answers : list Z) (p p' : Parser) :
  (feed Rev1.accept p bytes = Some (answers, p') ->
     feed Rev1.accept p
       (filter (fun c => negb (Rev1.is_rtcmd (uint8 c))) bytes)
       = Some (answers_without Rev1.is_rtcmd bytes answers, p')
     /\ map snd (filter (fun cr => Rev1.is_rtcmd (uint8 (fst cr)))
                        (combine bytes answers))
        = map uint8 (filter (fun c => Rev1.is_rtcmd (uint8 c)) bytes))
  /\ (feed Rev2.accept p bytes = Some (answers, p') ->
     feed Rev2.accept p
       (filter (fun c => negb (Rev2.is_rtmsg (uint8 c))) bytes)
       = Some (answers_without Rev2.is_rtmsg bytes answers, p')
     /\ map snd (filter (fun cr => Rev2.is_rtmsg (uint8 (fst cr)))
                        (combine bytes answers))
        = map uint8 (filter (fun c => Rev2.is_rtmsg (uint8 c)) bytes)).
Proof.
  split; intros Hfeed.
  - exact (feed_without_realtime Rev1.is_rtcmd Rev1.is_cmd
             Rev1.expected_bytes bytes p answers p' Hfeed).
  - exact (feed_without_realtime Rev2.is_rtmsg Rev2.is_msg
             Rev2.expected_bytes bytes p answers p' Hfeed).
Qed.

(** A note-on with a clock byte after the status byte and an active-sense
    byte between the two data bytes. *)
Lemma realtime_transparent_witness :
  feed Rev2.accept new_parser [0x90; 0x40; 0x7F]
    = Some ([0; 0; 0x90],
            {| mMessage := 0x90; mExpected := 2; mData := (0x40, 0x7F) |})
  /\ map snd (filter (fun cr => Rev2.is_rtmsg (uint8 (fst cr)))
                (combine [0x90; MIDI.RT_CLOCK; 0x40; MIDI.RT_SENSE; 0x7F]
                         [0; MIDI.RT_CLOCK; 0; MIDI.RT_SENSE; 0x90]))
     = [MIDI.RT_CLOCK; MIDI.RT_SENSE].
Proof.
  apply (proj2 (realtime_transparent
                  [0x90; MIDI.RT_CLOCK; 0x40; MIDI.RT_SENSE; 0x7F]
                  [0; MIDI.RT_CLOCK; 0; MIDI.RT_SENSE; 0x90]
                  new_parser
                  {| mMessage := 0x90; mExpected := 2;
                     mData := (0x40, 0x7F) |})).
  reflexivity.
Defined.

(** ** The accessors *)

(** X8.  Whenever [accept], called in any parser state, answers a non-zero
    byte that is not a realtime byte, [get_message] afterwards is that byte,
    and the parser is armed with the count [expected_bytes] gives for it.
    Both revisions. *)
Theorem reported_message_is_held (p p' : Parser) (c r : Z) :
  r <> MIDI.NONE ->
  (Rev1.accept p c = Some (r, p') -> Rev1.is_rtcmd r = false ->
     get_message p' = r /\ Rev1.expected_bytes r = Some (mExpected p'))
  /\ (Rev2.accept p c = Some (r, p') -> Rev2.is_rtmsg r = false ->
     get_message p' = r /\ Rev2.expected_bytes r = Some (mExpected p')).
Proof.
  intros Hr. split; intros Hstep Hnrt.
  - exact (machine_reports Rev1.is_rtcmd Rev1.is_cmd Rev1.expected_bytes
             p p' c r Hstep Hr Hnrt).
  - exact (machine_reports Rev2.is_rtmsg Rev2.is_msg Rev2.expected_bytes
             p p' c r Hstep Hr Hnrt).
Qed.

(** The data byte that completes a program change. *)
Lemma reported_message_is_held_witness :
  get_message {| mMessage := 0xC3; mExpected := 1; mData := (0, 9) |} = 0xC3
  /\ Rev2.expected_bytes 0xC3
     = Some (mExpected {| mMessage := 0xC3; mExpected := 1;
                          mData := (0, 9) |}).
Proof.
  assert (Hr : 0xC3 <> MIDI.NONE) by (unfold MIDI.NONE; lia).
  apply (proj2 (reported_message_is_held
                  {| mMessage := 0xC3; mExpected := 1; mData := (0, 0) |}
                  {| mMessage := 0xC3; mExpected := 1; mData := (0, 9) |}
                  9 0xC3 Hr)); reflexivity.
Defined.

(** X9.  In every parser reachable from [reset] by calls of [accept], both
    entries of [mData] are below 0x80 (only data bytes are ever stored), so
    [get_int14] is [get_dataA + 128 * get_dataB] and is below 2^14.  Both
    revisions. *)
Theorem data_entries_are_data_bytes (p : Parser) :
  (reachable Rev1.accept p ->
     is_data (get_dataA p) /\ is_data (get_dataB p)
     /\ get_int14 p = get_dataA p + 128 * get_dataB p
     /\ 0 <= get_int14 p < 16384)
  /\ (reachable Rev2.accept p ->
     is_data (get_dataA p) /\ is_data (get_dataB p)
     /\ get_int14 p = get_dataA p + 128 * get_dataB p
     /\ 0 <= get_int14 p < 16384).
Proof.
  split; intros Hreach.
  - destruct (reachable_keeps_data Rev1.is_rtcmd Rev1.is_cmd
                Rev1.expected_bytes rev1_is_rtcmd_spec rev1_is_cmd_spec
                p Hreach) as [Ha Hb].
    destruct (get_int14_sum p Ha Hb) as [Hsum Hlt]. auto.
  - destruct (reachable_keeps_data Rev2.is_rtmsg Rev2.is_msg
                Rev2.expected_bytes rev2_is_rtmsg_spec rev2_is_msg_spec
                p Hreach) as [Ha Hb].
    destruct (get_int14_sum p Ha Hb) as [Hsum Hlt]. auto.
Qed.

(** The parser after the stream [0xE0, 0x00, 0x40] (pitch bend, centre). *)
Lemma data_entries_are_data_bytes_witness :
  is_data (get_dataA {| mMessage := 0xE0; mExpected := 2;
                        mData := (0x00, 0x40) |})
  /\ is_data (get_dataB {| mMessage := 0xE0; mExpected := 2;
                           mData := (0x00, 0x40) |})
  /\ get_int14 {| mMessage := 0xE0; mExpected := 2; mData := (0x00, 0x40) |}
     = get_dataA {| mMessage := 0xE0; mExpected := 2;
                    mData := (0x00, 0x40) |}
       + 128 * get_dataB {| mMessage := 0xE0; mExpected := 2;
                            mData := (0x00, 0x40) |}
  /\ 0 <= get_int14 {| mMessage := 0xE0; mExpected := 2;
                       mData := (0x00, 0x40) |} < 16384.
Proof.
  apply (proj2 (data_entries_are_data_bytes _)).
  apply (feed_reachable Rev2.accept [0xE0; 0x00; 0x40] new_parser
           [0; 0; 0xE0]); [apply reach_reset | reflexivity].
Defined.

(** X10.  Pitch bend round trip.  In any parser state, a pitch-bend status
    byte followed by the low and the high 7 bits of a value [v] below 2^14 is
    answered 0, 0 and the status byte, and [get_int14] then returns [v].
    Both revisions. *)
Theorem pitch_bend_value (p : Parser) (m v : Z) :
  MIDI.PITCH_BEND <= m < MIDI.SYSEX -> 0 <= v < 16384 ->
  (exists p', feed Rev1.accept p [m; v mod 128; v / 128]
                = Some ([0; 0; m], p')
              /\ get_int14 p' = v)
  /\ (exists p', feed Rev2.accept p [m; v mod 128; v / 128]
                   = Some ([0; 0; m], p')
                 /\ get_int14 p' = v).
Proof.
  unfold MIDI.PITCH_BEND, MIDI.SYSEX. intros Hm Hv.
  assert (Hb : is_byte m) by (unfold is_byte; lia).
  check_byte (fun m => implb ((0xE0 <=? m) && (m <? 0xF0))
    (option_eqb (Rev1.expected_bytes m) (Some 2)
     && option_eqb (Rev2.expected_bytes m) (Some 2))) Hb.
  replace (0xE0 <=? m) with true in Hchk by (symmetry; apply Z.leb_le; lia).
  replace (m <? 0xF0) with true in Hchk by (symmetry; apply Z.ltb_lt; lia).
  simpl in Hchk. apply andb_prop in Hchk. destruct Hchk as [H1 H2].
  apply option_eqb_eq in H1. apply option_eqb_eq in H2.
  assert (Hlo : is_data (v mod 128))
    by (unfold is_data; Z.div_mod_to_equations; lia).
  assert (Hhi : is_data (v / 128))
    by (unfold is_data; Z.div_mod_to_equations; lia).
  assert (Hval : get_int14 {| mMessage := m; mExpected := 2;
                              mData := (v mod 128, v / 128) |} = v).
  { destruct (get_int14_sum {| mMessage := m; mExpected := 2;
                               mData := (v mod 128, v / 128) |} Hlo Hhi)
      as [Hsum _].
    rewrite Hsum. unfold get_dataA, get_dataB. cbn [mData fst snd].
    Z.div_mod_to_equations. lia. }
  split.
  - eexists. split; [| exact Hval].
    exact (machine_two_param Rev1.is_rtcmd Rev1.is_cmd Rev1.expected_bytes
             rev1_is_rtcmd_spec rev1_is_cmd_spec p m _ _
             ltac:(lia) H1 Hlo Hhi).
  - eexists. split; [| exact Hval].
    exact (machine_two_param Rev2.is_rtmsg Rev2.is_msg Rev2.expected_bytes
             rev2_is_rtmsg_spec rev2_is_msg_spec p m _ _
             ltac:(lia) H2 Hlo Hhi).
Qed.

(** Pitch bend on channel 0 with the centre value 0x2000. *)
Lemma pitch_bend_value_witness :
  (exists p', feed Rev1.accept new_parser [0xE0; 0x2000 mod 128; 0x2000 / 128]
                = Some ([0; 0; 0xE0], p')
              /\ get_int14 p' = 0x2000)
  /\ (exists p', feed Rev2.accept new_parser
                   [0xE0; 0x2000 mod 128; 0x2000 / 128]
                   = Some ([0; 0; 0xE0], p')
                 /\ get_int14 p' = 0x2000).
Proof.
  apply pitch_bend_value; unfold MIDI.PITCH_BEND, MIDI.SYSEX; lia.
Defined.

(** ** The two revisions side by side *)

(** Two instances of the control flow whose counts agree on the message the
    parser holds and on the byte fed give the same result, and the counts
    agree again on the message held afterwards. *)
Lemma machine_agree (is_rt is_m : Z -> bool) (e1 e2 : Z -> option Z)
    (p : Parser) (c : Z) :
  e1 (mMessage p) = e2 (mMessage p) ->
  (is_rt (uint8 c) = false -> is_m (uint8 c) = true ->
   e1 (uint8 c) = e2 (uint8 c)) ->
  machine is_rt is_m e1 p c = machine is_rt is_m e2 p c
  /\ forall r p', machine is_rt is_m e2 p c = Some (r, p') ->
       e1 (mMessage p') = e2 (mMessage p').
Proof.
  intros Hheld Hfed. unfold machine, machine_finish. cbv zeta.
  destruct (is_rt (uint8 c)).
  { split; [reflexivity |]. intros r p' H. injection H as _ <-. exact Hheld. }
  destruct (is_m (uint8 c)).
  - specialize (Hfed eq_refl eq_refl). rewrite <- Hfed.
    destruct (e1 (uint8 c)) as [e |] eqn:He1; cbn [bind mExpected mMessage];
      [| split; [reflexivity | discriminate]].
    destruct (e <? 0).
    + split; [reflexivity |]. intros r p' H. injection H as _ <-.
      cbn [mMessage]. congruence.
    + cbn [mData]. rewrite <- Hfed, He1. cbn [bind].
      split; [reflexivity |]. intros r p' H.
      destruct (e =? 0); injection H as _ <-; cbn [mMessage]; congruence.
  - assert (Hfin : forall q r p',
              mMessage q = mMessage p ->
              (if mExpected q =? 0
               then e <- e1 (mMessage p);;
                    Some (mMessage q,
                          {| mMessage := mMessage q; mExpected := e;
                             mData := mData q |})
               else Some (0, q)) = Some (r, p') ->
              e1 (mMessage p') = e2 (mMessage p')).
    { intros q r p' Hq H. destruct (mExpected q =? 0).
      - destruct (e1 (mMessage p)) eqn:He; cbn [bind] in H; [| discriminate].
        injection H as _ <-. cbn [mMessage]. congruence.
      - injection H as _ <-. congruence. }
    destruct (0 <? mExpected p).
    + destruct (store (mData p) (2 - mExpected p) (uint8 c)) as [d |];
        cbn [bind mExpected mMessage mData];
        [| split; [reflexivity | discriminate]].
      rewrite <- Hheld.
      split; [reflexivity |]. intros r p' H.
      exact (Hfin {| mMessage := mMessage p;
                     mExpected := int8 (mExpected p - 1);
                     mData := d |} r p' eq_refl H).
    + rewrite <- Hheld.
      split; [reflexivity |]. intros r p' H.
      exact (Hfin p r p' eq_refl H).
Qed.

Lemma tables_agree (b : Z) :
  is_byte b -> Rev2.is_rtmsg b = false -> Rev2.is_msg b = true ->
  ~ (0xD0 <= b <= 0xDF \/ b = MIDI.ENDEX) ->
  Rev1.expected_bytes b = Rev2.expected_bytes b.
Proof.
  intros Hb Hrt Hm Hgood.
  check_byte (fun b =>
    implb (negb (Rev2.is_rtmsg b) && Rev2.is_msg b
           && negb ((0xD0 <=? b) && (b <=? 0xDF)) && negb (b =? MIDI.ENDEX))
      (option_eqb (Rev1.expected_bytes b) (Rev2.expected_bytes b))) Hb.
  rewrite Hrt, Hm in Hchk.
  replace ((0xD0 <=? b) && (b <=? 0xDF)) with false in Hchk
    by (symmetry; apply andb_false_iff; lia).
  replace (b =? MIDI.ENDEX) with false in Hchk
    by (symmetry; apply Z.eqb_neq; lia).
  apply option_eqb_eq, Hchk.
Qed.

Lemma feed_agree (bytes : list Z) :
  Forall (fun c => ~ tables_differ_on c) bytes ->
  forall p,
    Rev1.expected_bytes (mMessage p) = Rev2.expected_bytes (mMessage p) ->
    feed Rev1.accept p bytes = feed Rev2.accept p bytes.
Proof.
  intros Hgood. induction Hgood as [| c rest Hc _ IH]; intros p Hheld.
  - reflexivity.
  - destruct (machine_agree Rev2.is_rtmsg Rev2.is_msg
                Rev1.expected_bytes Rev2.expected_bytes p c Hheld)
      as [Hsame Hnext].
    { intros Hrt Hm.
      exact (tables_agree (uint8 c) (uint8_is_byte c) Hrt Hm Hc). }
    change (Rev1.accept p c = Rev2.accept p c) in Hsame.
    cbn [feed]. rewrite Hsame.
    destruct (Rev2.accept p c) as [[r q] |] eqn:Hstep; [| reflexivity].
    cbn [bind fst snd]. rewrite (IH q); [reflexivity |].
    exact (Hnext r q Hstep).
Qed.

(** X11.  The two revisions are the same parser on every stream that holds
    no channel-pressure byte (0xD0 to 0xDF) and no [ENDEX]: started from
    [reset], they give the same answers and end in the same state. *)
Theorem revisions_agree (p : Parser) (bytes : list Z) :
  Forall (fun c => ~ tables_differ_on c) bytes ->
  feed Rev1.accept (reset p) bytes = feed Rev2.accept (reset p) bytes.
Proof.
  intros Hgood. apply (feed_agree bytes Hgood). reflexivity.
Qed.

(** A note-on, a clock byte, a system-exclusive start and a tune
    request. *)
Lemma revisions_agree_witness :
  feed Rev1.accept (reset new_parser)
    [0x90; 0x40; MIDI.RT_CLOCK; 0x7F; MIDI.SYSEX; 0x01; MIDI.TUNE_REQ]
  = feed Rev2.accept (reset new_parser)
      [0x90; 0x40; MIDI.RT_CLOCK; 0x7F; MIDI.SYSEX; 0x01; MIDI.TUNE_REQ].
Proof.
  apply revisions_agree.
  repeat constructor; unfold tables_differ_on; vm_compute;
    intros [[H1 H2] | H]; congruence.
Defined.

(** X12.  Channel pressure, where the revisions part.  In any parser state,
    after a channel-pressure status byte and one data byte the second
    revision answers the message and has the pressure in [mData[1]]
    ([get_dataB]); the first revision answers 0, has stored the byte in
    [mData[0]] and still waits for a second data byte. *)
Theorem channel_pressure_revisions (p : Parser) (m d : Z) :
  MIDI.CH_TOUCH <= m < MIDI.PITCH_BEND -> is_data d ->
  feed Rev1.accept p [m; d]
    = Some ([0; 0],
            {| mMessage := m; mExpected := 1;
               mData := (d, snd (mData p)) |})
  /\ feed Rev2.accept p [m; d]
     = Some ([0; m],
             {| mMessage := m; mExpected := 1;
                mData := (fst (mData p), d) |}).
Proof.
  unfold MIDI.CH_TOUCH, MIDI.PITCH_BEND. intros Hm Hd.
  assert (Hb : is_byte m) by (unfold is_byte; lia).
  check_byte (fun m => implb ((0xD0 <=? m) && (m <? 0xE0))
    (option_eqb (Rev1.expected_bytes m) (Some 2)
     && option_eqb (Rev2.expected_bytes m) (Some 1))) Hb.
  replace (0xD0 <=? m) with true in Hchk by (symmetry; apply Z.leb_le; lia).
  replace (m <? 0xE0) with true in Hchk by (symmetry; apply Z.ltb_lt; lia).
  simpl in Hchk. apply andb_prop in Hchk. destruct Hchk as [H1 H2].
  apply option_eqb_eq in H1. apply option_eqb_eq in H2.
  split.
  - change (feed Rev1.accept p [m; d])
      with (feed (machine Rev1.is_rtcmd Rev1.is_cmd Rev1.expected_bytes)
              p [m; d]).
    cbn [feed].
    rewrite (machine_start_pending _ _ _ rev1_is_rtcmd_spec rev1_is_cmd_spec
               p m 2) by (auto; lia).
    cbn [bind fst snd].
    rewrite (machine_data_first _ _ _ rev1_is_rtcmd_spec rev1_is_cmd_spec)
      by (auto; reflexivity).
    reflexivity.
  - change (feed Rev2.accept p [m; d])
      with (feed (machine Rev2.is_rtmsg Rev2.is_msg Rev2.expected_bytes)
              p [m; d]).
    cbn [feed].
    rewrite (machine_start_pending _ _ _ rev2_is_rtmsg_spec rev2_is_msg_spec
               p m 1) by (auto; lia).
    cbn [bind fst snd].
    rewrite (machine_data_last _ _ _ rev2_is_rtmsg_spec rev2_is_msg_spec
               _ d 1) by (auto; reflexivity).
    reflexivity.
Qed.

(** Channel pressure 0x55 on channel 3, sent to a new parser. *)
Lemma channel_pressure_revisions_witness :
  feed Rev1.accept new_parser [0xD3; 0x55]
    = Some ([0; 0],
            {| mMessage := 0xD3; mExpected := 1;
               mData := (0x55, snd (mData new_parser)) |})
  /\ feed Rev2.accept new_parser [0xD3; 0x55]
     = Some ([0; 0xD3],
             {| mMessage := 0xD3; mExpected := 1;
                mData := (fst (mData new_parser), 0x55) |}).
Proof.
  apply channel_pressure_revisions;
    unfold MIDI.CH_TOUCH, MIDI.PITCH_BEND, is_data; lia.
Defined.

(** ** The tracer sketch *)

(** The two name look-ups of [loop] are inside their tables for the value 0
    and for every byte with the high bit set. *)
Lemma print_message_defined (r : Z) (p : Parser) :
  r = 0 \/ 0x80 <= r <= 0xFF ->
  exists out, Tracer.print_message r p = Some out.
Proof.
  intros [-> | Hr]; [exists []; reflexivity |].
  assert (Hb : is_byte r) by (unfold is_byte; lia).
  check_byte (fun r => implb (0x80 <=? r)
    (match Tracer.name_at Tracer.midi_msg_names
             (Z.land (Z.shiftr r 4) 0x07) with
     | Some _ => true
     | None => r >=? MIDI.SYSEX
     end
     && match Tracer.name_at Tracer.midi_sysmsg_names (Z.land r 0x0f) with
        | Some _ => true
        | None => false
        end)) Hb.
  replace (0x80 <=? r) with true in Hchk by (symmetry; apply Z.leb_le; lia).
  simpl in Hchk. apply andb_prop in Hchk. destruct Hchk as [Hch Hsys].
  unfold Tracer.print_message.
  destruct (Z.eqb_spec r 0); [lia |]. cbn [negb].
  destruct (Z.ltb_spec r MIDI.SYSEX) as [Hlt | Hge].
  - destruct (Tracer.name_at Tracer.midi_msg_names
                (Z.land (Z.shiftr r 4) 0x07)) as [name |].
    + cbn [bind]. eauto.
    + exfalso. revert Hch. unfold Z.geb.
      destruct (Z.compare_spec r MIDI.SYSEX); try discriminate; lia.
  - destruct (negb (r =? MIDI.RT_CLOCK)); [| eauto].
    destruct (Tracer.name_at Tracer.midi_sysmsg_names (Z.land r 0x0f))
      as [name |]; [cbn [bind]; eauto | discriminate].
Qed.

Lemma loop_defined (pending : list Z) :
  forall p, reachable Rev2.accept p ->
    exists out p', Tracer.loop Rev2.accept p pending = Some (out, p').
Proof.
  induction pending as [| data rest IH]; intros p Hreach.
  - exists [], p. reflexivity.
  - pose proof (rev2_reachable_ok p Hreach) as Hok.
    destruct (machine_defined Rev2.is_rtmsg Rev2.is_msg Rev2.expected_bytes
                rev2_is_rtmsg_spec rev2_is_msg_spec p (uint8 data) Hok)
      as (r & q & Hstep).
    { intros Hr. apply rev2_expected_defined. right; lia. }
    destruct (machine_preserves Rev2.is_rtmsg Rev2.is_msg
                Rev2.expected_bytes rev2_is_rtmsg_spec rev2_is_msg_spec
                rev2_expected_count p q (uint8 data) r Hok Hstep)
      as (_ & Hr & _).
    destruct (print_message_defined r q Hr) as [out Hout].
    destruct (IH q (reach_accept Rev2.accept p (uint8 data) r q Hreach Hstep))
      as (outs & p' & Hrest).
    exists (out ++ outs), p'.
    change (machine Rev2.is_rtmsg Rev2.is_msg Rev2.expected_bytes
              p (uint8 data)) with (Rev2.accept p (uint8 data)) in Hstep.
    cbn [Tracer.loop]. rewrite Hstep. cbn [bind fst snd].
    rewrite Hout. cbn [bind]. rewrite Hrest. reflexivity.
Qed.

(** X13.  The tracer never indexes its name tables out of bounds.  Linked
    with the second revision, [loop] has a defined result for every run of
    pending bytes, from every parser reachable from [reset]: [accept]
    answers, and each non-zero answer has the high bit set, which keeps
    [(msg >> 4) & 0x07] below 7 on the channel branch and [msg & 0x0f] below
    16 on the system branch. *)
Theorem tracer_lookups_in_bounds (p : Parser) (pending : list Z) :
  reachable Rev2.accept p ->
  exists out p', Tracer.loop Rev2.accept p pending = Some (out, p').
Proof. intros Hreach. exact (loop_defined pending p Hreach). Qed.

(** The sketch right after [setup], with a note-off, a stray data byte, a
    start byte and [ENDEX] pending. *)
Lemma tracer_lookups_in_bounds_witness :
  exists out p',
    Tracer.loop Rev2.accept new_parser
      [0x80; 0x3C; 0x00; 0x7F; MIDI.RT_START; MIDI.ENDEX] = Some (out, p').
Proof. apply tracer_lookups_in_bounds. apply reach_reset. Defined.

(** X14.  What the tracer prints for a pitch bend.  Linked with the second
    revision and in any parser state, for the pending bytes of a pitch bend
    on channel [m - 0xE0] that carries the 14-bit value [v] (low 7 bits
    first), [loop] prints one line: the status byte in hex, the channel, the
    name of pitch bend, and [v] in hex. *)
Theorem tracer_prints_pitch_bend (p : Parser) (m v : Z) :
  MIDI.PITCH_BEND <= m < MIDI.SYSEX -> 0 <= v < 16384 ->
  Tracer.loop Rev2.accept p [m; v mod 128; v / 128]
    = Some (Tracer.pitch_bend_line m v,
            {| mMessage := m; mExpected := 2;
               mData := (v mod 128, v / 128) |}).
Proof.
  unfold MIDI.PITCH_BEND, MIDI.SYSEX. intros Hm Hv.
  assert (Hb : is_byte m) by (unfold is_byte; lia).
  check_byte (fun m => implb ((0xE0 <=? m) && (m <? 0xF0))
    (option_eqb (Rev2.expected_bytes m) (Some 2)
     && (MIDI.msg_value m =? MIDI.PITCH_BEND)
     && (MIDI.msg_channel m =? m - MIDI.PITCH_BEND)
     && (Z.land (Z.shiftr m 4) 0x07 =? 6))) Hb.
  replace (0xE0 <=? m) with true in Hchk by (symmetry; apply Z.leb_le; lia).
  replace (m <? 0xF0) with true in Hchk by (symmetry; apply Z.ltb_lt; lia).
  simpl in Hchk.
  apply andb_prop in Hchk. destruct Hchk as [Hchk Hidx].
  apply andb_prop in Hchk. destruct Hchk as [Hchk Hchan].
  apply andb_prop in Hchk. destruct Hchk as [Hexp Hval].
  apply option_eqb_eq in Hexp. apply Z.eqb_eq in Hidx.
  apply Z.eqb_eq in Hchan.
  assert (Hlo : is_data (v mod 128))
    by (unfold is_data; Z.div_mod_to_equations; lia).
  assert (Hhi : is_data (v / 128))
    by (unfold is_data; Z.div_mod_to_equations; lia).
  assert (Hu : forall c, is_data c -> uint8 c = c)
    by (intros c Hc; apply uint8_of_byte; unfold is_data in Hc;
        unfold is_byte; lia).
  assert (Hint : get_int14 {| mMessage := m; mExpected := 2;
                              mData := (v mod 128, v / 128) |} = v).
  { destruct (get_int14_sum {| mMessage := m; mExpected := 2;
                               mData := (v mod 128, v / 128) |} Hlo Hhi)
      as [Hsum _].
    rewrite Hsum. unfold get_dataA, get_dataB. cbn [mData fst snd].
    Z.div_mod_to_equations. lia. }
  change (Tracer.loop Rev2.accept)
    with (Tracer.loop (machine Rev2.is_rtmsg Rev2.is_msg Rev2.expected_bytes)).
  cbn [Tracer.loop].
  rewrite (uint8_of_byte m Hb), (Hu _ Hlo), (Hu _ Hhi).
  rewrite (machine_start_pending _ _ _ rev2_is_rtmsg_spec rev2_is_msg_spec
             p m 2) by (auto; lia).
  cbn [bind fst snd].
  rewrite (machine_data_first _ _ _ rev2_is_rtmsg_spec rev2_is_msg_spec)
    by (auto; reflexivity).
  cbn [bind fst snd].
  rewrite (machine_data_last _ _ _ rev2_is_rtmsg_spec rev2_is_msg_spec
             _ (v / 128) 2) by (auto; reflexivity).
  cbn [bind fst snd mMessage mData].
  change (Tracer.print_message 0 ?q) with (Some (@nil Tracer.item)).
  cbn [bind app].
  unfold Tracer.print_message, Tracer.pitch_bend_line.
  destruct (Z.eqb_spec m 0); [lia |]. cbn [negb].
  destruct (Z.ltb_spec m MIDI.SYSEX); [| unfold MIDI.SYSEX in *; lia].
  rewrite Hidx, Hval, Hchan, Hint. reflexivity.
Qed.

(** Pitch bend on channel 1 with the centre value 0x2000. *)
Lemma tracer_prints_pitch_bend_witness :
  Tracer.loop Rev2.accept new_parser [0xE1; 0x2000 mod 128; 0x2000 / 128]
    = Some (Tracer.pitch_bend_line 0xE1 0x2000,
            {| mMessage := 0xE1; mExpected := 2;
               mData := (0x2000 mod 128, 0x2000 / 128) |}).
Proof.
  apply tracer_prints_pitch_bend; unfold MIDI.PITCH_BEND, MIDI.SYSEX; lia.
Defined.
